(** * Sharded PBFT ordering service: topology and replicator

    A shallow embedding of
    - [platform/consensus/execution/system_info.{h,cpp}] (the cluster topology),
    - [platform/consensus/ordering/pbft/commitment.cpp] (the replicator entry
      points), and
    - the broadcast path of [platform/networkstrate/replica_communicator.cpp],
    followed by the properties of the design document that concern them. *)

From stdpp Require Import base gmap list strings.
From Stdlib Require Import ZArith Lia.

Local Open Scope Z_scope.

(** ** Machine integers *)

Definition UINT32_MAX : Z := 4294967295.
Definition SIZE_MAX : Z := 18446744073709551615.

(** Conversion to [uint32_t], as it happens implicitly when a wider integer is
    used as a key or value of the [uint32_t] maps. *)
Definition u32 (x : Z) : Z := x mod 4294967296.

(** ** Topology: [SystemInfo] *)

Module Topology.

(** [ReplicaInfo] is a protobuf message; the fields the code reads are [id()],
    [ip()] and [port()]. *)
Record ReplicaInfo := mkReplicaInfo {
  id : Z;
  ip : string;
  port : Z
}.

Record SystemInfo := mkSystemInfo {
  replicas_ : list ReplicaInfo;
  primary_id_ : Z;
  view_ : Z;
  shard_count_ : nat;                    (* size_t *)
  node_to_shard_ : gmap Z Z;             (* node_id -> shard_id *)
  shard_to_nodes_ : gmap Z (list Z);     (* shard_id -> list of nodes *)
  shard_primaries_ : gmap Z Z            (* shard_id -> node_id *)
}.

Definition GetPrimaryId (s : SystemInfo) : Z := primary_id_ s.

Definition SetPrimary (i : Z) (s : SystemInfo) : SystemInfo :=
  {| replicas_ := replicas_ s; primary_id_ := i; view_ := view_ s;
     shard_count_ := shard_count_ s; node_to_shard_ := node_to_shard_ s;
     shard_to_nodes_ := shard_to_nodes_ s;
     shard_primaries_ := shard_primaries_ s |}.

Definition GetCurrentView (s : SystemInfo) : Z := view_ s.

Definition SetCurrentView (v : Z) (s : SystemInfo) : SystemInfo :=
  {| replicas_ := replicas_ s; primary_id_ := primary_id_ s; view_ := v;
     shard_count_ := shard_count_ s; node_to_shard_ := node_to_shard_ s;
     shard_to_nodes_ := shard_to_nodes_ s;
     shard_primaries_ := shard_primaries_ s |}.

Definition GetReplicas (s : SystemInfo) : list ReplicaInfo := replicas_ s.

Definition SetReplicas (rs : list ReplicaInfo) (s : SystemInfo) : SystemInfo :=
  {| replicas_ := rs; primary_id_ := primary_id_ s; view_ := view_ s;
     shard_count_ := shard_count_ s; node_to_shard_ := node_to_shard_ s;
     shard_to_nodes_ := shard_to_nodes_ s;
     shard_primaries_ := shard_primaries_ s |}.

Definition GetShardCount (s : SystemInfo) : nat := shard_count_ s.

(** [it != end() ? it->second.size() : 0] *)
Definition GetShardSize (s : SystemInfo) (shard_id : Z) : nat :=
  match shard_to_nodes_ s !! shard_id with
  | Some nodes => length nodes
  | None => 0%nat
  end.

(** [it != end() ? it->second : std::vector<uint32_t>{}] *)
Definition GetNodesInShard (s : SystemInfo) (shard_id : Z) : list Z :=
  match shard_to_nodes_ s !! shard_id with
  | Some nodes => nodes
  | None => []
  end.

Definition GetShardOfNode (s : SystemInfo) (node_id : Z) : Z :=
  match node_to_shard_ s !! node_id with
  | Some sh => sh
  | None => UINT32_MAX
  end.

Definition GetPrimaryOfShard (s : SystemInfo) (shard_id : Z) : Z :=
  match shard_primaries_ s !! shard_id with
  | Some p => p
  | None => UINT32_MAX
  end.

(** Sets the number of shards and clears the shard mapping. *)
Definition SetShardCount (count : nat) (s : SystemInfo) : SystemInfo :=
  {| replicas_ := replicas_ s; primary_id_ := primary_id_ s; view_ := view_ s;
     shard_count_ := count;
     node_to_shard_ := ∅;
     shard_to_nodes_ := ∅;
     shard_primaries_ := ∅ |}.

(** [shard_to_nodes_[i]]: [operator[]] of [std::unordered_map] inserts an
    empty vector under a key that is not present yet. *)
Definition shard_entry (m : gmap Z (list Z)) (i : Z) : gmap Z (list Z) :=
  match m !! i with
  | Some _ => m
  | None => <[i := []]> m
  end.

(** The state of the search loop of [AddReplicaToShard]: the map (touched by
    [operator[]]), [target] and [min_size]. *)
Record scan := mkScan {
  scan_map : gmap Z (list Z);
  scan_target : Z;
  scan_min : Z
}.

(** One iteration, [size_t sz = shard_to_nodes_[i].size();
    if (sz < min_size) { target = i; min_size = sz; }]. *)
Definition scan_step (st : scan) (i : nat) : scan :=
  let m := shard_entry (scan_map st) (Z.of_nat i) in
  let sz := Z.of_nat (length (default [] (m !! Z.of_nat i))) in
  if sz <? scan_min st
  then {| scan_map := m; scan_target := Z.of_nat i; scan_min := sz |}
  else {| scan_map := m; scan_target := scan_target st;
          scan_min := scan_min st |}.

(** [for (unsigned int i = 0; i < shard_count_; ++i)], started with
    [target = 0] and [min_size = SIZE_MAX].  The counter is an [unsigned int]:
    the model covers the shard counts up to 2^32, which the counter reaches. *)
Definition scan_shards (count : nat) (m : gmap Z (list Z)) : scan :=
  fold_left scan_step (seq 0 count)
            {| scan_map := m; scan_target := 0; scan_min := SIZE_MAX |}.

(** Adds a replica to the least populated shard, tracks the shard membership
    and designates the first node of a shard as its primary. *)
Definition AddReplicaToShard (replica : ReplicaInfo) (s : SystemInfo)
  : SystemInfo :=
  if Nat.eqb (shard_count_ s) 0 then s
  else
    let sc := scan_shards (shard_count_ s) (shard_to_nodes_ s) in
    let target := scan_target sc in
    let nodes := shard_entry (scan_map sc) target in
    {| replicas_ := replicas_ s ++ [replica];
       primary_id_ := primary_id_ s;
       view_ := view_ s;
       shard_count_ := shard_count_ s;
       node_to_shard_ := <[u32 (id replica) := target]> (node_to_shard_ s);
       shard_to_nodes_ :=
         <[target := default [] (nodes !! target) ++ [u32 (id replica)]]> nodes;
       shard_primaries_ :=
         match shard_primaries_ s !! target with
         | Some _ => shard_primaries_ s
         | None => <[target := u32 (id replica)]> (shard_primaries_ s)
         end |}.

(** [replica.id() == 0 || replica.ip().empty() || replica.port() == 0] *)
Definition malformed (replica : ReplicaInfo) : bool :=
  (id replica =? 0) || String.eqb (ip replica) EmptyString
  || (port replica =? 0).

(** The loop over [replicas_] that looks for [cur_replica.id() == replica.id()]. *)
Definition replica_exist (replica : ReplicaInfo) (rs : list ReplicaInfo)
  : bool :=
  existsb (fun cur_replica => id cur_replica =? id replica) rs.

Definition AddReplica (replica : ReplicaInfo) (s : SystemInfo) : SystemInfo :=
  if malformed replica then s
  else if replica_exist replica (replicas_ s) then s
  else AddReplicaToShard replica s.

(** The calls the topology invariants range over. *)
Inductive call :=
| CallSetShardCount (count : nat)
| CallAddReplica (replica : ReplicaInfo).

Definition run_call (s : SystemInfo) (c : call) : SystemInfo :=
  match c with
  | CallSetShardCount count => SetShardCount count s
  | CallAddReplica replica => AddReplica replica s
  end.

(** A freshly constructed [SystemInfo]: both constructors leave the three
    shard maps empty; the roster, primary, view and shard count are whatever
    the constructor and the configuration made them. *)
Definition fresh (s : SystemInfo) : Prop :=
  node_to_shard_ s = ∅ ∧ shard_to_nodes_ s = ∅ ∧ shard_primaries_ s = ∅.

Inductive reachable : SystemInfo -> Prop :=
| reachable_fresh s : fresh s -> reachable s
| reachable_call s c : reachable s -> reachable (run_call s c).

(** The empty assignment over [S] shards. *)
Definition empty_assignment (S : nat) (s : SystemInfo) : Prop :=
  shard_count_ s = S ∧ fresh s.

Definition add_replicas (rs : list ReplicaInfo) (s : SystemInfo) : SystemInfo :=
  fold_left (fun st r => AddReplica r st) rs s.

(** A call of [AddReplica] is successful when it gets past both checks of
    [AddReplica] and the initialisation check of [AddReplicaToShard]. *)
Definition AddReplica_succeeds (replica : ReplicaInfo) (s : SystemInfo) : bool :=
  negb (malformed replica) && negb (replica_exist replica (replicas_ s))
  && negb (Nat.eqb (shard_count_ s) 0).

(** Every call of the sequence [rs], run from [s], is successful. *)
Fixpoint all_succeed (rs : list ReplicaInfo) (s : SystemInfo) : bool :=
  match rs with
  | [] => true
  | r :: rs' => AddReplica_succeeds r s && all_succeed rs' (AddReplica r s)
  end.

(** The length of the [shard_to_nodes_] list of a shard, 0 without an entry. *)
Definition shard_len (m : gmap Z (list Z)) (i : Z) : nat :=
  length (default [] (m !! i)).

(** What [target] and [min_size] hold after [count] iterations. *)
Definition scan_inv (m : gmap Z (list Z)) (count : nat) (st : scan) : Prop :=
  (forall j, (j < count)%nat -> scan_min st <= Z.of_nat (shard_len m (Z.of_nat j)))
  /\ ((scan_min st = SIZE_MAX /\ scan_target st = 0)
      \/ exists t, (t < count)%nat /\ scan_target st = Z.of_nat t
           /\ scan_min st = Z.of_nat (shard_len m (Z.of_nat t))
           /\ forall j, (j < t)%nat ->
                (shard_len m (Z.of_nat t) < shard_len m (Z.of_nat j))%nat).

(** Over the shard ids below [S]: any two sizes differ by at most one, and no
    size exceeds [n]. *)
Definition balanced (S n : nat) (m : gmap Z (list Z)) : Prop :=
  (forall a b, (a < S)%nat -> (b < S)%nat ->
     (shard_len m (Z.of_nat a) <= shard_len m (Z.of_nat b) + 1)%nat)
  /\ (forall a, (a < S)%nat -> (shard_len m (Z.of_nat a) <= n)%nat).

(** Every shard with a member has a primary, and every recorded primary is a
    member of its shard. *)
Definition coordinated (s : SystemInfo) : Prop :=
  (forall t, default [] (shard_to_nodes_ s !! t) <> [] ->
     is_Some (shard_primaries_ s !! t))
  /\ (forall t p, shard_primaries_ s !! t = Some p ->
        p ∈ default [] (shard_to_nodes_ s !! t)).

(** An example roster: four replicas on one host. *)
Definition replica_n (n : Z) : ReplicaInfo :=
  {| id := n; ip := "127.0.0.1"; port := 10000 + n |}.

Definition blank (count : nat) : SystemInfo :=
  {| replicas_ := []; primary_id_ := 1; view_ := 1; shard_count_ := count;
     node_to_shard_ := ∅; shard_to_nodes_ := ∅; shard_primaries_ := ∅ |}.

Definition four_in_two : SystemInfo :=
  add_replicas [replica_n 1; replica_n 2; replica_n 3; replica_n 4] (blank 2).

Definition four_in_one : SystemInfo :=
  add_replicas [replica_n 1; replica_n 2; replica_n 3; replica_n 4] (blank 1).

End Topology.

Import Topology.

(** ** Messages *)

(** Modelled from the spec: [Request] is a protobuf message of [resdb.proto],
    which is not among the sources.  It has the fields the data model lists
    and [ret], which the code sets; the types are those the code names, the
    type of a client request and the default. *)
Inductive RequestType :=
| TYPE_NONE | TYPE_NEW_TXNS | TYPE_PRE_PREPARE | TYPE_PREPARE | TYPE_COMMIT
| TYPE_RESPONSE.

Record SignatureInfo := mkSignatureInfo { signature : string }.

(** A cleared [SignatureInfo], as [Clear()] leaves it. *)
Definition SignatureInfo_clear : SignatureInfo := {| signature := EmptyString |}.

Module Request.

Record t := mk {
  type : RequestType;
  seq : Z;
  current_view : Z;
  sender_id : Z;
  primary_id : Z;
  proxy_id : Z;
  hash : string;
  data : string;
  data_signature : SignatureInfo;
  is_recovery : bool;
  ret : Z
}.

(** [Request request;] *)
Definition default_instance : t :=
  {| type := TYPE_NONE; seq := 0; current_view := 0; sender_id := 0;
     primary_id := 0; proxy_id := 0; hash := EmptyString; data := EmptyString;
     data_signature := SignatureInfo_clear; is_recovery := false; ret := 0 |}.

Definition set_type (v : RequestType) (r : t) : t :=
  mk v (seq r) (current_view r) (sender_id r) (primary_id r) (proxy_id r)
     (hash r) (data r) (data_signature r) (is_recovery r) (ret r).
Definition set_seq (v : Z) (r : t) : t :=
  mk (type r) v (current_view r) (sender_id r) (primary_id r) (proxy_id r)
     (hash r) (data r) (data_signature r) (is_recovery r) (ret r).
Definition set_current_view (v : Z) (r : t) : t :=
  mk (type r) (seq r) v (sender_id r) (primary_id r) (proxy_id r)
     (hash r) (data r) (data_signature r) (is_recovery r) (ret r).
Definition set_sender_id (v : Z) (r : t) : t :=
  mk (type r) (seq r) (current_view r) v (primary_id r) (proxy_id r)
     (hash r) (data r) (data_signature r) (is_recovery r) (ret r).
Definition set_primary_id (v : Z) (r : t) : t :=
  mk (type r) (seq r) (current_view r) (sender_id r) v (proxy_id r)
     (hash r) (data r) (data_signature r) (is_recovery r) (ret r).
Definition set_proxy_id (v : Z) (r : t) : t :=
  mk (type r) (seq r) (current_view r) (sender_id r) (primary_id r) v
     (hash r) (data r) (data_signature r) (is_recovery r) (ret r).
Definition set_hash (v : string) (r : t) : t :=
  mk (type r) (seq r) (current_view r) (sender_id r) (primary_id r) (proxy_id r)
     v (data r) (data_signature r) (is_recovery r) (ret r).
Definition clear_data (r : t) : t :=
  mk (type r) (seq r) (current_view r) (sender_id r) (primary_id r) (proxy_id r)
     (hash r) EmptyString (data_signature r) (is_recovery r) (ret r).
Definition set_data_signature (v : SignatureInfo) (r : t) : t :=
  mk (type r) (seq r) (current_view r) (sender_id r) (primary_id r) (proxy_id r)
     (hash r) (data r) v (is_recovery r) (ret r).
Definition set_ret (v : Z) (r : t) : t :=
  mk (type r) (seq r) (current_view r) (sender_id r) (primary_id r) (proxy_id r)
     (hash r) (data r) (data_signature r) (is_recovery r) v.

End Request.

Abbreviation Request := Request.t.

(** [Context]: what the entry points read of it is the signature of the
    message. *)
Record Context := mkContext { context_signature : SignatureInfo }.

(** Modelled from the spec: [resdb::NewRequest] of [transaction_utils.h],
    which is not among the sources; it constructs a message of the given type
    from [request], sent by [sender_id]. *)
Definition NewRequest (type : RequestType) (request : Request) (sender_id : Z)
  : Request :=
  Request.set_sender_id sender_id (Request.set_type type request).

(** ** The duplicate guard *)

(** Modelled from the spec: the [DuplicateManager] is not among the sources.
    Its state maps a request hash to a proposed mark and to the sequence
    number it was executed with; [CheckIfExecuted] answers 0 for a hash that
    was not executed. *)
Record DuplicateManager := mkDuplicateManager {
  proposed : gset string;
  executed : gmap string Z
}.

(** Modelled from the spec: [CheckIfExecuted(hash)], the sequence number the
    hash was executed with, 0 when it was not. *)
Definition CheckIfExecuted (hash : string) (d : DuplicateManager) : Z :=
  default 0 (executed d !! hash).

(** Modelled from the spec: [MarkExecuted(hash, seq)]. *)
Definition MarkExecuted (hash : string) (seq : Z) (d : DuplicateManager)
  : DuplicateManager :=
  {| proposed := proposed d; executed := <[hash := seq]> (executed d) |}.

(** Modelled from the spec: [CheckAndAddProposed(hash)] answers whether the
    hash is marked proposed, and marks it when it is not. *)
Definition CheckAndAddProposed (hash : string) (d : DuplicateManager)
  : bool * DuplicateManager :=
  if decide (hash ∈ proposed d) then (true, d)
  else (false, {| proposed := {[hash]} ∪ proposed d; executed := executed d |}).

(** Modelled from the spec: [EraseProposed(hash)] removes the mark. *)
Definition EraseProposed (hash : string) (d : DuplicateManager)
  : DuplicateManager :=
  {| proposed := proposed d ∖ {[hash]}; executed := executed d |}.

(** ** The message manager *)

(** Modelled from the spec: the result codes of [AddConsensusMsg] and the
    phases of a slot, two enumerations of headers that are not among the
    sources. *)
Inductive CollectorResultCode := INVALID | OK | STATE_CHANGED.

Inductive TransactionStatue :=
| IDLE | READY_PREPARE | READY_COMMIT | READY_EXECUTE | EXECUTED.

(** The [MessageManager] is not among the sources.  Its sequence counter
    and its per-sequence slots are an interface to the entry points:
    any state [MM] with these operations.  [AssignNextSeq] returns an
    [absl::StatusOr]; [code_value] is the integer of a [CollectorResultCode],
    which the recovery paths return as it is. *)
Class MessageStore (MM : Type) := {
  AssignNextSeq : MM -> option Z * MM;
  AddConsensusMsg : SignatureInfo -> Request -> MM -> CollectorResultCode * MM;
  GetTransactionState : Z -> MM -> TransactionStatue;
  GetNextSeq : MM -> Z;
  SetNextSeq : Z -> MM -> MM;
  GetHighestPreparedSeq : MM -> Z;
  SetHighestPreparedSeq : Z -> MM -> MM;
  code_value : CollectorResultCode -> Z
}.

(** Modelled from the spec: the topology queries of the [MessageManager],
    which is not among the sources; they read the [SystemInfo] it holds.
    [GetPrimaryOfNode(n)] is the coordinator of the shard of [n]. *)
Definition GetPrimaryOfNode (info : SystemInfo) (node_id : Z) : Z :=
  GetPrimaryOfShard info (GetShardOfNode info node_id).

(** Modelled from the spec: [NodesInSameShard(a, b)]. *)
Definition NodesInSameShard (info : SystemInfo) (a b : Z) : bool :=
  GetShardOfNode info a =? GetShardOfNode info b.

(** Modelled from the spec: [GetCurrentPrimary()], the global primary. *)
Definition GetCurrentPrimary (info : SystemInfo) : Z := GetPrimaryId info.

(** ** The replicator: [Commitment] *)

(** What an entry point does to its collaborators, in program order: the
    calls on the replica communicator, on the message manager, on the
    duplicate manager and on the statistics. *)
Inductive Event :=
| SendMessage (message : Request) (node_id : Z)
| BroadCast (message : Request)
| SendResponse (message : Request)
| CallAssignNextSeq
| CallAddConsensusMsg (signature : SignatureInfo) (message : Request)
| CallSetNextSeq (seq : Z)
| CallSetHighestPreparedSeq (seq : Z)
| CallCheckAndAddProposed (hash : string)
| CallEraseProposed (hash : string)
| Stat (call : string).

(** The verifier, [verifier_]. *)
Record SignatureVerifier := mkSignatureVerifier {
  VerifyMessage : string -> SignatureInfo -> bool;
  SignMessage : string -> option SignatureInfo
}.

(** What is fixed while an entry point runs: the id of this replica
    ([config_.GetSelfInfo().id()]), [need_qc_], [pre_verify_func_] (which may
    be unset), [verifier_] (which may be null) and the faulty switch of the
    statistics. *)
Record Config := mkConfig {
  self_id : Z;
  need_qc_ : bool;
  pre_verify_func_ : option (Request -> bool);
  verifier_ : option SignatureVerifier;
  IsFaulty : bool
}.

Section Commitment.

Context {MM : Type} {store_ops : MessageStore MM}.

Record State := mkState {
  info : SystemInfo;
  store : MM;
  duplicate_manager_ : DuplicateManager;
  request_complained_ : list (option Context * Request)
}.

(** An entry point runs from a state to a result, a state and the events it
    emitted; [None] is undefined behaviour (a null verifier dereferenced, a
    vector indexed past its end). *)
Definition M (A : Type) : Type := State -> option (A * State * list Event).

Definition ret {A} (a : A) : M A := fun s => Some (a, s, []).

Definition bind {A B} (m : M A) (f : A -> M B) : M B :=
  fun s =>
    match m s with
    | Some (a, s1, e1) =>
        match f a s1 with
        | Some (b, s2, e2) => Some (b, s2, e1 ++ e2)
        | None => None
        end
    | None => None
    end.

Definition undefined {A} : M A := fun _ => None.

Definition emit (e : Event) : M unit := fun s => Some (tt, s, [e]).

Definition get_info : M SystemInfo := fun s => Some (info s, s, []).
Definition get_store : M MM := fun s => Some (store s, s, []).
Definition get_duplicate_manager : M DuplicateManager :=
  fun s => Some (duplicate_manager_ s, s, []).

Definition put_store (st : MM) : M unit :=
  fun s => Some (tt, mkState (info s) st (duplicate_manager_ s)
                             (request_complained_ s), []).

Definition put_duplicate_manager (d : DuplicateManager) : M unit :=
  fun s => Some (tt, mkState (info s) (store s) d (request_complained_ s), []).

Definition push_request_complained (p : option Context * Request) : M unit :=
  fun s => Some (tt, mkState (info s) (store s) (duplicate_manager_ s)
                             (request_complained_ s ++ [p]), []).

End Commitment.

Arguments State : clear implicits.
Arguments M : clear implicits.

Notation "'let*' x ':=' m 'in' k" := (bind m (fun x => k))
  (at level 10, x name, m at level 100, k at level 200, only parsing).

(** [uint64_t] arithmetic wraps. *)
Definition u64 (x : Z) : Z := x mod 18446744073709551616.

Section EntryPoints.

Context {MM : Type} {store_ops : MessageStore MM}.
Variable cfg : Config.

Definition stat (call : string) : M MM unit := emit (Stat call).

Definition check_and_add_proposed (hash : string) : M MM bool :=
  let* d := get_duplicate_manager in
  let* _ := emit (CallCheckAndAddProposed hash) in
  let* _ := put_duplicate_manager (snd (CheckAndAddProposed hash d)) in
  ret (fst (CheckAndAddProposed hash d)).

Definition erase_proposed (hash : string) : M MM unit :=
  let* d := get_duplicate_manager in
  let* _ := emit (CallEraseProposed hash) in
  put_duplicate_manager (EraseProposed hash d).

Definition assign_next_seq : M MM (option Z) :=
  let* st := get_store in
  let* _ := emit CallAssignNextSeq in
  let* _ := put_store (snd (AssignNextSeq st)) in
  ret (fst (AssignNextSeq st)).

Definition add_consensus_msg (sig : SignatureInfo) (request : Request)
  : M MM CollectorResultCode :=
  let* st := get_store in
  let* _ := emit (CallAddConsensusMsg sig request) in
  let* _ := put_store (snd (AddConsensusMsg sig request st)) in
  ret (fst (AddConsensusMsg sig request st)).

Definition set_next_seq (seq : Z) : M MM unit :=
  let* st := get_store in
  let* _ := emit (CallSetNextSeq seq) in
  put_store (SetNextSeq seq st).

Definition set_highest_prepared_seq (seq : Z) : M MM unit :=
  let* st := get_store in
  let* _ := emit (CallSetHighestPreparedSeq seq) in
  put_store (SetHighestPreparedSeq seq st).

(** [verifier_->VerifyMessage(...)]; the pointer is not checked. *)
Definition verify_message (data : string) (sig : SignatureInfo) : M MM bool :=
  match verifier_ cfg with
  | Some v => ret (VerifyMessage v data sig)
  | None => undefined
  end.

(** [pre_verify_func_ && !pre_verify_func_(request)] *)
Definition pre_verify_fails (request : Request) : bool :=
  match pre_verify_func_ cfg with
  | Some f => negb (f request)
  | None => false
  end.

(** [context == nullptr || context->signature.signature().empty()] *)
Definition unsigned (context : option Context) : bool :=
  match context with
  | None => true
  | Some c => String.eqb (signature (context_signature c)) EmptyString
  end.

(** [context->signature], once [context] was checked. *)
Definition with_context {A} (context : option Context)
    (k : SignatureInfo -> M MM A) : M MM A :=
  match context with
  | Some c => k (context_signature c)
  | None => undefined
  end.

(** [for (int i = 0; i < bound; i++) body(nodes[i]);] over a vector [nodes].
    The model walks the vector along with the counter: [rest] is what is left
    of [nodes] from index [i] on, its head is [nodes[i]].  Indexing past the
    end is undefined. *)
Fixpoint for_index (body : Z -> M MM unit) (i bound : Z) (rest : list Z)
  : M MM unit :=
  if i <? bound then
    match rest with
    | node :: rest' =>
        let* _ := body node in
        for_index body (i + 1) bound rest'
    | [] => undefined
    end
  else ret tt.

(** [for (int i = 0; i < GetShardCount(); i++)
      SendMessage(message, GetPrimaryOfShard(i));] *)
Definition send_to_shard_primaries (info : SystemInfo) (message : Request)
  : M MM unit :=
  fold_right
    (fun i k => let* _ := emit (SendMessage message
                                  (GetPrimaryOfShard info (Z.of_nat i))) in k)
    (ret tt) (seq 0 (GetShardCount info)).

(** The ingress test the three consensus entry points start with: the sender
    is outside the shard of this replica, and this replica is not the
    coordinator of its shard. *)
Definition misrouted (info : SystemInfo) (request : Request) : bool :=
  negb (NodesInSameShard info (Request.sender_id request) (self_id cfg))
  && negb (self_id cfg =? GetPrimaryOfNode info (self_id cfg)).

(** Retransmit to the shard coordinator and end. *)
Definition retransmit (info : SystemInfo) (request : Request) : M MM Z :=
  let shard := GetShardOfNode info (self_id cfg) in
  let* _ := emit (SendMessage request (GetPrimaryOfShard info shard)) in
  ret (-3).

Definition result_code (r : CollectorResultCode) : Z :=
  match r with INVALID => -2 | _ => 0 end.

(** Handle the user request and send a pre-prepare message to the shard
    coordinators. *)
Definition ProcessNewRequest (context : option Context) (user_request : Request)
  : M MM Z :=
  if unsigned context then ret (-2)
  else (
    let* d := get_duplicate_manager in
    let seq := CheckIfExecuted (Request.hash user_request) d in
    if negb (seq =? 0) then
      let* _ := emit (SendResponse (Request.set_seq seq user_request)) in
      ret (-2)
    else
      let* info := get_info in
      if negb (self_id cfg =? GetPrimaryOfNode info (self_id cfg)) then
        let* _ := emit (SendMessage user_request
                          (GetPrimaryOfNode info (self_id cfg))) in
        let* _ := push_request_complained (context, user_request) in
        ret (-3)
      else
        let* valid := verify_message (Request.data user_request)
                                     (Request.data_signature user_request) in
        if negb valid then ret (-2)
        else if pre_verify_fails user_request then ret (-2)
        else
          let* _ := stat "IncClientRequest" in
          let* already := check_and_add_proposed (Request.hash user_request) in
          if already then ret (-2)
          else
            let* seq := assign_next_seq in
            match seq with
            | None =>
                let* _ := erase_proposed (Request.hash user_request) in
                let* _ := stat "SeqFail" in
                let request :=
                  Request.set_hash (Request.hash user_request)
                    (Request.set_ret (-2)
                      (Request.set_proxy_id (Request.proxy_id user_request)
                        (Request.set_sender_id (self_id cfg)
                          (Request.set_type TYPE_RESPONSE
                             Request.default_instance)))) in
                let* _ := emit (SendMessage request
                                  (Request.proxy_id request)) in
                ret (-2)
            | Some seq =>
                let* _ := stat "RecordStateTime(request)" in
                let user_request :=
                  Request.set_primary_id (self_id cfg)
                    (Request.set_sender_id (self_id cfg)
                      (Request.set_seq seq
                        (Request.set_current_view (GetCurrentView info)
                          (Request.set_type TYPE_PRE_PREPARE user_request)))) in
                let* _ := send_to_shard_primaries info user_request in
                ret 0
            end).

(** Modelled from the spec: ownership of a request transfers into the slot
    of the message manager.  [AddConsensusMsg] takes the
    [std::unique_ptr<Request>] by value, so after
    [AddConsensusMsg(..., std::move(request))] the caller's [request] is the
    null pointer. *)
Definition moved_from : option Request := None.

(** [request->field()] and [*request] on a [std::unique_ptr<Request>]:
    undefined on the null pointer. *)
Definition deref (request : option Request) : M MM Request :=
  match request with
  | Some r => ret r
  | None => undefined
  end.

(** The part of [ProcessProposeMsg] after the checks: build the prepare
    message, add the proposal to the message manager, and send the prepare
    on a state change.  The prepare is built before the request is moved
    into [AddConsensusMsg]; the sequence number and the sender are read from
    [request] after it. *)
Definition propose (sig : SignatureInfo) (info : SystemInfo) (request : Request)
  : M MM Z :=
  let* _ := stat "IncPropose" in
  let* _ := stat "RecordStateTime(pre-prepare)" in
  let prepare_request :=
    Request.clear_data (NewRequest TYPE_PREPARE request (self_id cfg)) in
  let* r := add_consensus_msg sig request in
  let request := moved_from in
  let* _ :=
    match r with
    | STATE_CHANGED =>
        let* moved := deref request in
        let* st := get_store in
        match GetTransactionState (Request.seq moved) st with
        | READY_PREPARE =>
            let* _ := emit (SendMessage prepare_request (self_id cfg)) in
            let* moved := deref request in
            if negb (Request.sender_id moved =? GetCurrentPrimary info)
            then emit (SendMessage prepare_request (GetCurrentPrimary info))
            else ret tt
        | _ =>
            let shard := GetShardOfNode info (self_id cfg) in
            for_index (fun node => emit (SendMessage prepare_request node))
              0 (GetShardOfNode info (u32 (Z.of_nat (GetShardSize info shard))))
              (GetNodesInShard info shard)
        end
    | _ => ret tt
    end in
  ret (result_code r).

(** Receive the pre-prepare message from the primary. *)
Definition ProcessProposeMsg (context : option Context) (request : Request)
  : M MM Z :=
  let* info := get_info in
  if misrouted info request then retransmit info request
  else if IsFaulty cfg || unsigned context then ret (-2)
  else with_context context (fun sig =>
    if Request.is_recovery request then
      let* st := get_store in
      if (GetNextSeq st =? 0) || (Request.seq request =? GetNextSeq st) then
        let* _ := set_next_seq (u64 (Request.seq request + 1)) in
        let* r := add_consensus_msg sig request in
        ret (code_value r)
      else ret 0
    else if negb (Request.sender_id request =? GetCurrentPrimary info)
            && negb (Request.sender_id request
                     =? GetPrimaryOfNode info (self_id cfg))
    then ret (-2)
    else if negb (Request.sender_id request =? self_id cfg) then
      if pre_verify_fails request then ret (-2)
      else
        let* valid := verify_message (Request.data request)
                                     (Request.data_signature request) in
        if negb valid then ret (-2)
        else
          let* already := check_and_add_proposed (Request.hash request) in
          if already then ret (-2)
          else propose sig info request
    else propose sig info request).

(** [if (need_qc_ && verifier_)]: sign the hash of the commit message;
    [None] when signing fails. *)
Definition sign_commit (commit_request : Request) : option Request :=
  if need_qc_ cfg then
    match verifier_ cfg with
    | Some v =>
        match SignMessage v (Request.hash commit_request) with
        | Some sig => Some (Request.set_data_signature sig commit_request)
        | None => None
        end
    | None => Some commit_request
    end
  else Some commit_request.

(** If 2f+1 prepare messages were received, broadcast a commit message. *)
Definition ProcessPrepareMsg (context : option Context) (request : Request)
  : M MM Z :=
  let* info := get_info in
  if misrouted info request then retransmit info request
  else if unsigned context then ret (-2)
  else with_context context (fun sig =>
    if Request.is_recovery request then
      let* r := add_consensus_msg sig request in
      ret (code_value r)
    else
      let commit_request :=
        Request.set_data_signature SignatureInfo_clear
          (NewRequest TYPE_COMMIT request (self_id cfg)) in
      let seq_ := Request.seq request in
      let* r := add_consensus_msg sig request in
      match r with
      | STATE_CHANGED =>
          let* st := get_store in
          let* _ := (if GetHighestPreparedSeq st <? seq_
                     then set_highest_prepared_seq seq_ else ret tt) in
          match sign_commit commit_request with
          | None => ret (-2)
          | Some commit_request =>
              let* st := get_store in
              let* _ :=
                match GetTransactionState seq_ st with
                | READY_COMMIT =>
                    let* _ := stat "RecordStateTime(prepare)" in
                    if self_id cfg =? GetCurrentPrimary info
                    then emit (BroadCast commit_request)
                    else ret tt
                | _ =>
                    let shard := GetShardOfNode info (self_id cfg) in
                    for_index
                      (fun node => emit (SendMessage commit_request node))
                      0 (Z.of_nat (GetShardSize info shard))
                      (GetNodesInShard info shard)
                end in
              ret (result_code r)
          end
      | _ => ret (result_code r)
      end).

(** If 2f+1 commit messages were received, commit the request.  Nothing of
    [request] is kept before it is moved into [AddConsensusMsg]; the sequence
    number and the two messages of the local round are read from [request]
    after it. *)
Definition ProcessCommitMsg (context : option Context) (request : Request)
  : M MM Z :=
  let* info := get_info in
  if misrouted info request then retransmit info request
  else if unsigned context then ret (-2)
  else with_context context (fun sig =>
    if Request.is_recovery request then
      let* r := add_consensus_msg sig request in
      ret (code_value r)
    else
      let* r := add_consensus_msg sig request in
      let request := moved_from in
      let* _ :=
        match r with
        | STATE_CHANGED =>
            let* moved := deref request in
            let* st := get_store in
            match GetTransactionState (Request.seq moved) st with
            | READY_EXECUTE => stat "RecordStateTime(commit)"
            | _ =>
                let* moved := deref request in
                let propose_request :=
                  NewRequest TYPE_PRE_PREPARE moved (self_id cfg) in
                let shard := GetShardOfNode info (self_id cfg) in
                let* _ :=
                  for_index
                    (fun node =>
                       if negb (node =? self_id cfg)
                       then emit (SendMessage propose_request node)
                       else ret tt)
                    0 (Z.of_nat (GetShardSize info shard))
                    (GetNodesInShard info shard) in
                let* moved := deref request in
                let prepare_request :=
                  NewRequest TYPE_PREPARE moved (self_id cfg) in
                for_index
                  (fun node => emit (SendMessage prepare_request node))
                  0 (Z.of_nat (GetShardSize info shard))
                  (GetNodesInShard info shard)
            end
        | _ => ret tt
        end in
      ret (result_code r)).

End EntryPoints.

(** ** The broadcast path of the replica communicator *)

Module Transport.

Record ReplicaCommunicator := mkReplicaCommunicator {
  replicas_ : list ReplicaInfo;
  clients_ : list ReplicaInfo;
  is_use_long_conn_ : bool
}.

(** What goes on the wire: a message for a replica.  [GetClient] and
    [GetClientFromPool] return a client for every address, so the loops below
    address every replica of the list they are given. *)
Definition SendMessageInternal (message : Request)
    (replicas : list ReplicaInfo) : list (ReplicaInfo * Request) :=
  map (fun replica => (replica, message)) replicas.

Definition SendMessageFromPool (message : Request)
    (replicas : list ReplicaInfo) : list (ReplicaInfo * Request) :=
  map (fun replica => (replica, message)) replicas.

(** [SendMessage(message)]: with long connections the message is queued on
    [batch_queue_], which the broadcast thread drains with
    [SendMessageFromPool(broadcast_data, replicas_)]; without,
    [SendMessageInternal(message, replicas_)]. *)
Definition SendMessage (c : ReplicaCommunicator) (message : Request)
  : list (ReplicaInfo * Request) :=
  if is_use_long_conn_ c then SendMessageFromPool message (replicas_ c)
  else SendMessageInternal message (replicas_ c).

Definition BroadCast (c : ReplicaCommunicator) (message : Request)
  : list (ReplicaInfo * Request) :=
  SendMessage c message.

End Transport.

(** ** A scripted message manager and example inputs *)

(** A message manager that answers from a script, the way the mock of a unit
    test does: [AssignNextSeq] and [AddConsensusMsg] take their answers from
    two queues, [GetTransactionState] gives the same phase for every
    sequence number. *)
Record Script := mkScript {
  assign_answers : list (option Z);
  consensus_answers : list CollectorResultCode;
  phase_answer : TransactionStatue;
  next_seq : Z;
  highest_prepared_seq : Z
}.

#[export] Instance Script_store : MessageStore Script := {|
  AssignNextSeq st :=
    match assign_answers st with
    | a :: rest =>
        (a, mkScript rest (consensus_answers st) (phase_answer st)
                     (next_seq st) (highest_prepared_seq st))
    | [] => (None, st)
    end;
  AddConsensusMsg _ _ st :=
    match consensus_answers st with
    | a :: rest =>
        (a, mkScript (assign_answers st) rest (phase_answer st)
                     (next_seq st) (highest_prepared_seq st))
    | [] => (INVALID, st)
    end;
  GetTransactionState _ st := phase_answer st;
  GetNextSeq st := next_seq st;
  SetNextSeq seq st :=
    mkScript (assign_answers st) (consensus_answers st) (phase_answer st)
             seq (highest_prepared_seq st);
  GetHighestPreparedSeq st := highest_prepared_seq st;
  SetHighestPreparedSeq seq st :=
    mkScript (assign_answers st) (consensus_answers st) (phase_answer st)
             (next_seq st) seq;
  code_value r := match r with INVALID => -2 | OK => 0 | STATE_CHANGED => 1 end
|}.

Definition accept_all : SignatureVerifier :=
  {| VerifyMessage := fun _ _ => true;
     SignMessage := fun h => Some {| signature := h |} |}.

Definition replica_cfg (self : Z) : Config :=
  {| self_id := self; need_qc_ := false; pre_verify_func_ := None;
     verifier_ := Some accept_all; IsFaulty := false |}.

Definition signed : option Context :=
  Some {| context_signature := {| signature := "sig" |} |}.

Definition request_H (type : RequestType) (sender seq : Z) : Request :=
  {| Request.type := type; Request.seq := seq; Request.current_view := 1;
     Request.sender_id := sender; Request.primary_id := 1;
     Request.proxy_id := 9; Request.hash := "H"; Request.data := "D";
     Request.data_signature := {| signature := "client" |};
     Request.is_recovery := false; Request.ret := 0 |}.

Definition no_duplicates : DuplicateManager :=
  {| proposed := ∅; executed := ∅ |}.

Definition scripted (info : SystemInfo) (assigns : list (option Z))
    (answers : list CollectorResultCode) (phase : TransactionStatue)
    (d : DuplicateManager) : State Script :=
  mkState info (mkScript assigns answers phase 1 0) d [].

(** ** Runs and invariants of the topology *)

Definition run_calls (cs : list call) (s : SystemInfo) : SystemInfo :=
  fold_left run_call cs s.

(** The id a call registers fits the [uint32_t] keys of the shard maps. *)
Definition uint32_call (c : call) : Prop :=
  match c with
  | CallAddReplica r => 0 <= id r <= UINT32_MAX
  | CallSetShardCount _ => True
  end.

(** Every key of the shard maps and every recorded shard is a shard id below
    the shard count. *)
Definition within_shard_count (s : SystemInfo) : Prop :=
  (forall n t, node_to_shard_ s !! n = Some t ->
     0 <= t < Z.of_nat (shard_count_ s))
  /\ (forall t l, shard_to_nodes_ s !! t = Some l ->
        0 <= t < Z.of_nat (shard_count_ s))
  /\ (forall t p, shard_primaries_ s !! t = Some p ->
        0 <= t < Z.of_nat (shard_count_ s)).

(** A node recorded in a shard is on the list of that shard. *)
Definition nodes_listed (s : SystemInfo) : Prop :=
  forall n t, node_to_shard_ s !! n = Some t -> n ∈ GetNodesInShard s t.

(** The primary of a shard is the head of its list. *)
Definition primary_first (s : SystemInfo) : Prop :=
  forall t, shard_primaries_ s !! t = head (GetNodesInShard s t).

(** The lists are duplicate free, their members are recorded in
    [node_to_shard_] under the shard of the list, and are ids of the
    roster. *)
Definition partitioned (s : SystemInfo) : Prop :=
  (forall t, NoDup (GetNodesInShard s t))
  /\ (forall n t, n ∈ GetNodesInShard s t -> node_to_shard_ s !! n = Some t)
  /\ (forall n t, n ∈ GetNodesInShard s t ->
        exists r, r ∈ replicas_ s /\ id r = n).

(** The size of shard [i] when [k] replicas are dealt out to [S] shards in
    turn. *)
Definition dealt (count k i : nat) : nat :=
  (k / count + (if (i <? k mod count)%nat then 1 else 0))%nat.

(** ** The response thread and the kinds of events *)

(** A message leaves the replica: a call on the communicator or
    [SendResponse]. *)
Definition is_send (e : Event) : bool :=
  match e with
  | SendMessage _ _ | BroadCast _ | SendResponse _ => true
  | _ => false
  end.

(** Modelled from the spec: the executed batch [GetResponseMsg] returns, a
    protobuf message that is not among the sources; [batch_serialized] is
    what [SerializeToString] makes of it. *)
Record BatchUserResponse := mkBatchUserResponse {
  batch_hash : string;
  batch_seq : Z;
  batch_current_view : Z;
  batch_proxy_id : Z;
  batch_primary_id : Z;
  batch_serialized : string
}.

Section ResponseThread.

Context {MM : Type} {store_ops : MessageStore MM}.
Variable cfg : Config.

(** The response built for an executed batch. *)
Definition batch_response (batch_resp : BatchUserResponse) : Request :=
  {| Request.type := TYPE_RESPONSE;
     Request.seq := batch_seq batch_resp;
     Request.current_view := batch_current_view batch_resp;
     Request.sender_id := self_id cfg;
     Request.primary_id := batch_primary_id batch_resp;
     Request.proxy_id := batch_proxy_id batch_resp;
     Request.hash := batch_hash batch_resp;
     Request.data := batch_serialized batch_resp;
     Request.data_signature := SignatureInfo_clear;
     Request.is_recovery := false;
     Request.ret := 0 |}.

(** One turn of the loop of [PostProcessExecutedMsg], for what
    [GetResponseMsg] returned ([None] is the null pointer). *)
Definition post_process (batch_resp : option BatchUserResponse) : M MM unit :=
  match batch_resp with
  | None => ret tt
  | Some b =>
      let* _ := stat "SendSummary" in
      let* info := get_info in
      if NodesInSameShard info (batch_primary_id b) (self_id cfg) then
        let request := batch_response b in
        emit (SendMessage request (Request.proxy_id request))
      else ret tt
  end.

(** [while (!stop_) { ... } return 0;] over the results of the calls of
    [GetResponseMsg] made until [stop_] is set. *)
Fixpoint PostProcessExecutedMsg (polled : list (option BatchUserResponse))
  : M MM Z :=
  match polled with
  | [] => ret 0
  | batch_resp :: rest =>
      let* _ := post_process batch_resp in
      PostProcessExecutedMsg rest
  end.

End ResponseThread.

(** ** The replica communicator *)

Module Communicator.

(** What a channel is given: a message as it is, or the [BroadcastData]
    envelope of the messages of a batch. *)
Inductive Payload :=
| Raw (message : Request)
| Envelope (data : list Request).

(** A send on a channel: the address the channel was opened on and what it
    was given. *)
Record Attempt := mkAttempt {
  to_ip : string;
  to_port : Z;
  payload : Payload
}.

(** The network, as far as the code observes it: whether a send to an
    address returns 0. *)
Definition Network : Type := string -> Z -> bool.

Record ReplicaCommunicator := mkReplicaCommunicator {
  replicas_ : list ReplicaInfo;
  clients_ : list ReplicaInfo;
  is_use_long_conn_ : bool;
  (* address -> port the pooled client was opened on *)
  client_pools_ : gmap (string * Z) Z;
  (* what was pushed on the broadcast queue *)
  batch_queue_ : list Payload;
  (* what was pushed on the queue of an address *)
  single_bq_ : gmap (string * Z) (list Payload)
}.

Definition with_pools (pools : gmap (string * Z) Z) (c : ReplicaCommunicator)
  : ReplicaCommunicator :=
  mkReplicaCommunicator (replicas_ c) (clients_ c) (is_use_long_conn_ c)
    pools (batch_queue_ c) (single_bq_ c).

(** The outcome of a call: its return value, the communicator after it, the
    sends it made, and whether it logged a failure. *)
Record Outcome := mkOutcome {
  ret_value : Z;
  after : ReplicaCommunicator;
  attempts : list Attempt;
  logged_failure : bool
}.

Section WithNetwork.

Variable net : Network.

Definition IsInPool (c : ReplicaCommunicator) (replica_info : ReplicaInfo)
  : bool :=
  existsb (fun replica => String.eqb (ip replica_info) (ip replica)
                          && (port replica_info =? port replica))
          (replicas_ c).

Definition UpdateClientReplicas (replicas : list ReplicaInfo)
    (c : ReplicaCommunicator) : ReplicaCommunicator :=
  mkReplicaCommunicator (replicas_ c) replicas (is_use_long_conn_ c)
    (client_pools_ c) (batch_queue_ c) (single_bq_ c).

Definition GetClientReplicas (c : ReplicaCommunicator) : list ReplicaInfo :=
  clients_ c.

(** [ret++] for every replica whose [NetChannel] takes the message. *)
Definition SendHeartBeat (c : ReplicaCommunicator) (hb_info : Request) : Z :=
  fold_left (fun ret replica =>
               if net (ip replica) (port replica) then ret + 1 else ret)
            (replicas_ c) 0.

(** The pooled client of an address, opened on first use, 10000 ports up
    with long connections; the result is the pool and the port of the
    client. *)
Definition GetClientFromPool (c : ReplicaCommunicator) (ip : string) (port : Z)
  : ReplicaCommunicator * Z :=
  match client_pools_ c !! (ip, port) with
  | Some opened => (c, opened)
  | None =>
      let opened := port + (if is_use_long_conn_ c then 10000 else 0) in
      (with_pools (<[(ip, port) := opened]> (client_pools_ c)) c, opened)
  end.

(** The loop of [SendMessageFromPool]; [GetClientFromPool] never returns a
    null pointer. *)
Fixpoint SendMessageFromPool_loop (message : Payload)
    (replicas : list ReplicaInfo) (c : ReplicaCommunicator) (ret : Z)
    (sent : list Attempt) : Outcome :=
  match replicas with
  | [] => mkOutcome ret c sent false
  | replica :: rest =>
      let '(c1, opened) := GetClientFromPool c (ip replica) (port replica) in
      SendMessageFromPool_loop message rest c1
        (if net (ip replica) opened then ret + 1 else ret)
        (sent ++ [mkAttempt (ip replica) opened message])
  end.

Definition SendMessageFromPool (c : ReplicaCommunicator) (message : Payload)
    (replicas : list ReplicaInfo) : Outcome :=
  SendMessageFromPool_loop message replicas c 0 [].

(** The loop of [SendMessageInternal]; [GetClient] makes a fresh channel
    for the address. *)
Fixpoint SendMessageInternal_loop (message : Payload)
    (replicas : list ReplicaInfo) (c : ReplicaCommunicator) (ret : Z)
    (sent : list Attempt) : Outcome :=
  match replicas with
  | [] => mkOutcome ret c sent false
  | replica :: rest =>
      SendMessageInternal_loop message rest c
        (if net (ip replica) (port replica) then ret + 1 else ret)
        (sent ++ [mkAttempt (ip replica) (port replica) message])
  end.

Definition SendMessageInternal (c : ReplicaCommunicator) (message : Payload)
    (replicas : list ReplicaInfo) : Outcome :=
  SendMessageInternal_loop message replicas c 0 [].

(** [single_bq_[(ip, port)]->Push(item)], the queue made by
    [StartSingleInBackGround] when the address has none. *)
Definition push_single (key : string * Z) (item : Payload)
    (c : ReplicaCommunicator) : ReplicaCommunicator :=
  mkReplicaCommunicator (replicas_ c) (clients_ c) (is_use_long_conn_ c)
    (client_pools_ c) (batch_queue_ c)
    (<[key := default [] (single_bq_ c !! key) ++ [item]]> (single_bq_ c)).

Definition SendSingleMessage (c : ReplicaCommunicator) (message : Payload)
    (replica_info : ReplicaInfo) : Outcome :=
  if is_use_long_conn_ c then
    mkOutcome 0 (push_single (ip replica_info, port replica_info) message c)
              [] false
  else SendMessageInternal c message (replicas_ c).

(** [SendMessage(message)] *)
Definition SendMessage (c : ReplicaCommunicator) (message : Payload)
  : Outcome :=
  if is_use_long_conn_ c then
    mkOutcome 0
      (mkReplicaCommunicator (replicas_ c) (clients_ c) (is_use_long_conn_ c)
         (client_pools_ c) (batch_queue_ c ++ [message]) (single_bq_ c))
      [] false
  else SendMessageInternal c message (replicas_ c).

(** [SendMessage(message, replica_info)]: it returns what
    [SendSingleMessage] returns; the statements after that [return] are never
    reached. *)
Definition SendMessage_replica (c : ReplicaCommunicator) (message : Payload)
    (replica_info : ReplicaInfo) : Outcome :=
  SendSingleMessage c message replica_info.

Definition SendBatchMessage (c : ReplicaCommunicator) (messages : list Request)
    (replica_info : ReplicaInfo) : Outcome :=
  if is_use_long_conn_ c then
    SendMessageFromPool c (Envelope messages) [replica_info]
  else
    fold_left
      (fun acc message =>
         let o := SendMessageInternal (after acc) (Raw message) [replica_info] in
         mkOutcome (ret_value acc + ret_value o) (after o)
                   (attempts acc ++ attempts o) false)
      messages (mkOutcome 0 c [] false).

(** [if (ret < 0) LOG(ERROR) << "broadcast request fail:"] *)
Definition log_failure (o : Outcome) : Outcome :=
  mkOutcome (ret_value o) (after o) (attempts o) (ret_value o <? 0).

Definition BroadCast (c : ReplicaCommunicator) (message : Payload) : Outcome :=
  log_failure (SendMessage c message).

(** The loop [for (replica : list) if (replica.id() == node_id)
    { target_replica = replica; break; }]. *)
Definition lookup_id (node_id : Z) (replicas : list ReplicaInfo)
  : option ReplicaInfo :=
  find (fun replica => id replica =? node_id) replicas.

(** The replica [SendMessage(message, node_id)] settles on: the one of the
    roster with the id, or when that has an empty ip (or there is none), the
    one of the clients with the id. *)
Definition target_replica (c : ReplicaCommunicator) (node_id : Z)
  : ReplicaInfo :=
  let target := default {| id := 0; ip := EmptyString; port := 0 |}
                        (lookup_id node_id (replicas_ c)) in
  if String.eqb (ip target) EmptyString
  then default target (lookup_id node_id (GetClientReplicas c))
  else target.

(** [SendMessage(message, node_id)] *)
Definition SendMessage_node (c : ReplicaCommunicator) (message : Payload)
    (node_id : Z) : Outcome :=
  let target := target_replica c node_id in
  if String.eqb (ip target) EmptyString
  then mkOutcome 0 c [] false
  else log_failure (SendMessage_replica c message target).

End WithNetwork.

End Communicator.

(** ** Example communicators *)

(** The roster of [four_in_two] with one client, node 9, and a network on
    which every send succeeds. *)
Definition example_communicator (long : bool)
  : Communicator.ReplicaCommunicator :=
  Communicator.mkReplicaCommunicator (replicas_ four_in_two) [replica_n 9]
    long ∅ [] ∅.

Definition all_up : Communicator.Network := fun _ _ => true.

(** A verifier that accepts every message and signs none, and a replica
    that needs signed commits with it. *)
Definition signs_nothing : SignatureVerifier :=
  {| VerifyMessage := fun _ _ => true; SignMessage := fun _ => None |}.

Definition qc_cfg (self : Z) : Config :=
  {| self_id := self; need_qc_ := true; pre_verify_func_ := None;
     verifier_ := Some signs_nothing; IsFaulty := false |}.

(** The pool entry of an address after its first use with long
    connections. *)
Definition client_pools_of_first_use : option Z :=
  Communicator.client_pools_
    (fst (Communicator.GetClientFromPool (example_communicator true)
            "127.0.0.1" 10001))
  !! ("127.0.0.1"%string, 10001).

(** A recovery message. *)
Definition recovery_H (type : RequestType) (sender seq : Z) : Request :=
  {| Request.type := type; Request.seq := seq; Request.current_view := 1;
     Request.sender_id := sender; Request.primary_id := 1;
     Request.proxy_id := 9; Request.hash := "H"; Request.data := "D";
     Request.data_signature := {| signature := "client" |};
     Request.is_recovery := true; Request.ret := 0 |}.

(** ** Tactics *)

(** Unfold the operations of the monad of the entry points. *)
Ltac unfold_monad :=
  unfold bind, ret, emit, undefined, get_info, get_store,
    get_duplicate_manager, put_store, put_duplicate_manager,
    push_request_complained, with_context in *.

(** A run whose events do not include the one assumed to be among them. *)
Ltac no_such_event :=
  let Heq := fresh "Heq" in
  let Hin := fresh "Hin" in
  intros Heq Hin; inversion Heq; subst; exfalso;
  repeat first
    [ by apply elem_of_nil in Hin
    | apply elem_of_cons in Hin as [Hin|Hin]; [discriminate Hin|] ].

(** Read the outcome of a finished run off its equation and settle what the
    return code says about it. *)
Ltac read_code :=
  intros [= <- <- <-]; simpl; rewrite ?app_nil_r;
  repeat split; first [done | lia].

(** ** Properties of the topology *)

Section TopologyFacts.

Implicit Types (s : SystemInfo) (m : gmap Z (list Z)) (r : ReplicaInfo).

Lemma GetShardSize_len s i : GetShardSize s i = shard_len (shard_to_nodes_ s) i.
Proof. unfold GetShardSize, shard_len. by destruct (_ !! i). Qed.

Lemma GetNodesInShard_default s i :
  GetNodesInShard s i = default [] (shard_to_nodes_ s !! i).
Proof. unfold GetNodesInShard. by destruct (_ !! i). Qed.

Lemma shard_queries_agree s i :
  GetShardSize s i = length (GetNodesInShard s i)
  /\ GetNodesInShard s i = default [] (shard_to_nodes_ s !! i).
Proof. unfold GetShardSize, GetNodesInShard. by destruct (_ !! i). Qed.

Lemma shard_entry_lookup m i j :
  default [] (shard_entry m i !! j) = default [] (m !! j).
Proof.
  unfold shard_entry. destruct (m !! i) eqn:E; [done|].
  destruct (decide (i = j)) as [->|Hne].
  - by rewrite lookup_insert_eq, E.
  - by rewrite lookup_insert_ne.
Qed.

Lemma shard_entry_len m i j : shard_len (shard_entry m i) j = shard_len m j.
Proof. unfold shard_len. by rewrite shard_entry_lookup. Qed.

Lemma shard_entry_is_Some m i : is_Some (shard_entry m i !! i).
Proof.
  unfold shard_entry. destruct (m !! i) eqn:E; [by rewrite E|].
  rewrite lookup_insert_eq. eauto.
Qed.

Lemma scan_shards_S count m :
  scan_shards (S count) m = scan_step (scan_shards count m) count.
Proof. unfold scan_shards. by rewrite seq_S, fold_left_app. Qed.

(** The loop only adds empty entries: every list reads as before. *)
Lemma scan_shards_lookup count m j :
  default [] (scan_map (scan_shards count m) !! j) = default [] (m !! j).
Proof.
  induction count as [|n IH]; [done|].
  rewrite scan_shards_S. unfold scan_step.
  case (_ <? _); simpl; by rewrite shard_entry_lookup.
Qed.

Lemma scan_shards_inv count m :
  (forall j, (j < count)%nat -> Z.of_nat (shard_len m (Z.of_nat j)) < SIZE_MAX) ->
  scan_inv m count (scan_shards count m).
Proof.
  induction count as [|n IH]; intros Hb.
  - split; [intros j Hj; lia | left; done].
  - destruct IH as [Hmin Hsel]; [intros j Hj; apply Hb; lia|].
    rewrite scan_shards_S. unfold scan_step.
    set (st := scan_shards n m) in *.
    assert (Hsz : Z.of_nat (length (default []
              (shard_entry (scan_map st) (Z.of_nat n) !! Z.of_nat n)))
            = Z.of_nat (shard_len m (Z.of_nat n))).
    { rewrite shard_entry_lookup. unfold st.
      by rewrite scan_shards_lookup. }
    rewrite Hsz. destruct (Z.ltb_spec (Z.of_nat (shard_len m (Z.of_nat n)))
                                      (scan_min st)) as [Hlt|Hge]; unfold scan_inv; simpl.
    + split.
      * intros j Hj. destruct (decide (j = n)) as [->|]; [lia|].
        specialize (Hmin j ltac:(lia)). lia.
      * right. exists n. repeat split; [lia|].
        intros j Hj. specialize (Hmin j Hj). lia.
    + split.
      * intros j Hj. destruct (decide (j = n)) as [->|]; [lia|].
        apply Hmin. lia.
      * destruct Hsel as [[Hm Ht]|(t & Ht & Htt & Hmt & Hfirst)].
        -- specialize (Hb n ltac:(lia)). lia.
        -- right. exists t. repeat split; try done. lia.
Qed.

(** The shard the search loop selects: a shard of minimum size, the one with
    the smallest id among those. *)
Lemma scan_shards_target count m :
  (0 < count)%nat ->
  (forall j, (j < count)%nat -> Z.of_nat (shard_len m (Z.of_nat j)) < SIZE_MAX) ->
  exists t, (t < count)%nat /\ scan_target (scan_shards count m) = Z.of_nat t
    /\ (forall j, (j < count)%nat ->
          (shard_len m (Z.of_nat t) <= shard_len m (Z.of_nat j))%nat)
    /\ (forall j, (j < t)%nat ->
          (shard_len m (Z.of_nat t) < shard_len m (Z.of_nat j))%nat).
Proof.
  intros Hpos Hb. destruct (scan_shards_inv count m Hb) as [Hmin Hsel].
  destruct Hsel as [[Hm _]|(t & Ht & Htt & Hmt & Hfirst)].
  - specialize (Hmin 0%nat Hpos). specialize (Hb 0%nat Hpos). lia.
  - exists t. repeat split; try done.
    intros j Hj. specialize (Hmin j Hj). lia.
Qed.

(** The entries of [shard_to_nodes_] after [AddReplicaToShard] went through:
    the new id is appended to the list of the target, the other lists read as
    before. *)
Lemma AddReplicaToShard_lookup r s k :
  shard_count_ s <> 0%nat ->
  let t := scan_target (scan_shards (shard_count_ s) (shard_to_nodes_ s)) in
  default [] (shard_to_nodes_ (AddReplicaToShard r s) !! k)
  = if decide (k = t)
    then default [] (shard_to_nodes_ s !! t) ++ [u32 (id r)]
    else default [] (shard_to_nodes_ s !! k).
Proof.
  intros Hc t. unfold AddReplicaToShard.
  destruct (Nat.eqb_spec (shard_count_ s) 0) as [|_]; [done|]. simpl.
  fold t. destruct (decide (k = t)) as [->|Hne].
  - rewrite lookup_insert_eq. simpl.
    by rewrite shard_entry_lookup, scan_shards_lookup.
  - rewrite lookup_insert_ne by done.
    by rewrite shard_entry_lookup, scan_shards_lookup.
Qed.

Lemma AddReplica_cases r s :
  (AddReplica_succeeds r s = false /\ AddReplica r s = s)
  \/ (AddReplica_succeeds r s = true /\ shard_count_ s <> 0%nat
      /\ AddReplica r s = AddReplicaToShard r s).
Proof.
  unfold AddReplica, AddReplica_succeeds, AddReplicaToShard.
  destruct (malformed r); [by left|].
  destruct (replica_exist r (replicas_ s)); [by left|].
  destruct (Nat.eqb_spec (shard_count_ s) 0); [by left|by right].
Qed.

Lemma AddReplica_shard_count r s :
  shard_count_ (AddReplica r s) = shard_count_ s.
Proof.
  destruct (AddReplica_cases r s) as [[_ ->]|(_ & Hc & ->)]; [done|].
  unfold AddReplicaToShard. by destruct (Nat.eqb (shard_count_ s) 0).
Qed.

(** *** Load balance *)

Lemma AddReplicaToShard_balanced r s n :
  shard_count_ s <> 0%nat -> Z.of_nat n < SIZE_MAX ->
  balanced (shard_count_ s) n (shard_to_nodes_ s) ->
  balanced (shard_count_ s) (S n) (shard_to_nodes_ (AddReplicaToShard r s)).
Proof.
  intros Hc Hn [Hbal Hle].
  destruct (scan_shards_target (shard_count_ s) (shard_to_nodes_ s))
    as (t & Ht & Htt & Hmin & _); [lia| |].
  { intros j Hj. specialize (Hle j Hj). lia. }
  assert (Hlen : forall k : nat,
    shard_len (shard_to_nodes_ (AddReplicaToShard r s)) (Z.of_nat k)
    = if decide (k = t) then S (shard_len (shard_to_nodes_ s) (Z.of_nat t))
      else shard_len (shard_to_nodes_ s) (Z.of_nat k)).
  { intros k. unfold shard_len at 1.
    rewrite (AddReplicaToShard_lookup r s (Z.of_nat k) Hc), Htt.
    destruct (decide (Z.of_nat k = Z.of_nat t)) as [E|E];
      destruct (decide (k = t)) as [E'|E']; try lia; [|done].
    rewrite length_app. unfold shard_len. simpl. lia. }
  split.
  - intros a b Ha Hb. rewrite !Hlen.
    pose proof (Hbal a b Ha Hb). pose proof (Hmin a Ha). pose proof (Hmin b Hb).
    pose proof (Hbal a t Ha Ht).
    destruct (decide (a = t)), (decide (b = t)); subst; lia.
  - intros a Ha. rewrite Hlen. pose proof (Hle a Ha). pose proof (Hle t Ht).
    destruct (decide (a = t)); lia.
Qed.

Lemma add_replicas_balanced rs : forall s n,
  Z.of_nat (n + length rs) < SIZE_MAX ->
  balanced (shard_count_ s) n (shard_to_nodes_ s) ->
  shard_count_ (add_replicas rs s) = shard_count_ s
  /\ balanced (shard_count_ s) (n + length rs)
       (shard_to_nodes_ (add_replicas rs s)).
Proof.
  induction rs as [|r rs IH]; intros s n Hn Hbal; simpl.
  - split; [done|]. by rewrite Nat.add_0_r.
  - simpl in Hn.
    assert (Hstep : balanced (shard_count_ (AddReplica r s)) (S n)
                             (shard_to_nodes_ (AddReplica r s))).
    { rewrite AddReplica_shard_count.
      destruct (AddReplica_cases r s) as [[_ ->]|(_ & Hc & ->)].
      - destruct Hbal as [H1 H2]. split; [done|].
        intros a Ha. specialize (H2 a Ha). lia.
      - apply AddReplicaToShard_balanced; [done|lia|done]. }
    destruct (IH (AddReplica r s) (S n)) as [Hc Hb]; [lia|done|].
    rewrite AddReplica_shard_count in Hc, Hb.
    split; [done|]. by replace (n + S (length rs))%nat with (S n + length rs)%nat by lia.
Qed.

(** *** Coordinators *)

Lemma fresh_coordinated s : fresh s -> coordinated s.
Proof.
  intros (_ & Hn & Hp). split.
  - intros t. by rewrite Hn, lookup_empty.
  - intros t p. by rewrite Hp, lookup_empty.
Qed.

Lemma SetShardCount_coordinated count s : coordinated (SetShardCount count s).
Proof. by apply fresh_coordinated. Qed.

Lemma AddReplicaToShard_coordinated r s :
  shard_count_ s <> 0%nat -> coordinated s -> coordinated (AddReplicaToShard r s).
Proof.
  intros Hc [Hsome Hmem].
  pose proof (fun k => AddReplicaToShard_lookup r s k Hc) as Hlk. simpl in Hlk.
  set (t := scan_target (scan_shards (shard_count_ s) (shard_to_nodes_ s))) in *.
  assert (Hp : shard_primaries_ (AddReplicaToShard r s)
    = match shard_primaries_ s !! t with
      | Some _ => shard_primaries_ s
      | None => <[t := u32 (id r)]> (shard_primaries_ s)
      end).
  { unfold AddReplicaToShard.
    by destruct (Nat.eqb_spec (shard_count_ s) 0). }
  split.
  - intros k. rewrite Hlk, Hp. destruct (decide (k = t)) as [->|Hne].
    + intros _. destruct (shard_primaries_ s !! t) eqn:E; [by rewrite E|].
      rewrite lookup_insert_eq. eauto.
    + intros Hk. destruct (shard_primaries_ s !! t) eqn:E; [by apply Hsome|].
      rewrite lookup_insert_ne by done. by apply Hsome.
  - intros k p. rewrite Hlk, Hp. destruct (decide (k = t)) as [->|Hne].
    + destruct (shard_primaries_ s !! t) eqn:E.
      * rewrite E. intros [= <-]. apply elem_of_app. left. by apply Hmem.
      * rewrite lookup_insert_eq. intros [= <-]. apply elem_of_app. right.
        by apply list_elem_of_singleton.
    + destruct (shard_primaries_ s !! t) eqn:E; [by apply Hmem|].
      rewrite lookup_insert_ne by done. by apply Hmem.
Qed.

Lemma reachable_coordinated s : reachable s -> coordinated s.
Proof.
  induction 1 as [s Hf|s c _ IH].
  - by apply fresh_coordinated.
  - destruct c as [count|r]; simpl.
    + apply SetShardCount_coordinated.
    + destruct (AddReplica_cases r s) as [[_ ->]|(_ & Hc & ->)]; [done|].
      by apply AddReplicaToShard_coordinated.
Qed.

Lemma reachable_add_replicas rs : forall s,
  reachable s -> reachable (add_replicas rs s).
Proof.
  induction rs as [|r rs IH]; intros s Hs; [done|].
  simpl. apply IH. apply (reachable_call s (CallAddReplica r) Hs).
Qed.

End TopologyFacts.

(** ** Properties of the replicator *)

Section ReplicatorFacts.

Context {MM : Type} {store_ops : MessageStore MM}.

Implicit Types (cfg : Config) (s : State MM) (d : DuplicateManager).

(** Erasing the mark of a hash that was not proposed before it was marked
    gives the guard back as it was. *)
Lemma EraseProposed_CheckAndAddProposed hash d :
  hash ∉ proposed d ->
  fst (CheckAndAddProposed hash d) = false
  /\ EraseProposed hash (snd (CheckAndAddProposed hash d)) = d.
Proof.
  intros Hn. unfold CheckAndAddProposed.
  destruct (decide (hash ∈ proposed d)); [done|]. split; [done|].
  destruct d as [p e]. unfold EraseProposed. simpl in *. f_equal.
  apply set_eq. intros x. rewrite elem_of_difference, elem_of_union,
    !elem_of_singleton. split; [tauto|]. intros Hx. split; [tauto|].
  by intros ->.
Qed.

Lemma misrouted_true cfg s request :
  self_id cfg <> GetPrimaryOfNode (info s) (self_id cfg) ->
  NodesInSameShard (info s) (Request.sender_id request) (self_id cfg) = false ->
  misrouted cfg (info s) request = true.
Proof.
  intros Hp Hs. unfold misrouted. rewrite Hs. simpl.
  by destruct (Z.eqb_spec (self_id cfg) (GetPrimaryOfNode (info s) (self_id cfg))).
Qed.

(** The broadcast of the communicator addresses its whole roster. *)
Lemma BroadCast_roster (c : Transport.ReplicaCommunicator) (message : Request) :
  map fst (Transport.BroadCast c message) = Transport.replicas_ c.
Proof.
  unfold Transport.BroadCast, Transport.SendMessage,
    Transport.SendMessageFromPool, Transport.SendMessageInternal.
  destruct (Transport.is_use_long_conn_ c);
    induction (Transport.replicas_ c) as [|r l IH]; simpl; congruence.
Qed.

(** [ProcessNewRequest] gets to [AssignNextSeq] only past all its checks. *)
Lemma ProcessNewRequest_reaches_AssignNextSeq cfg context user_request s
    code s' events :
  ProcessNewRequest cfg context user_request s = Some (code, s', events) ->
  CallAssignNextSeq ∈ events ->
  unsigned context = false
  /\ CheckIfExecuted (Request.hash user_request) (duplicate_manager_ s) = 0
  /\ self_id cfg = GetPrimaryOfNode (info s) (self_id cfg)
  /\ (exists v, verifier_ cfg = Some v
        /\ VerifyMessage v (Request.data user_request)
             (Request.data_signature user_request) = true)
  /\ pre_verify_fails cfg user_request = false
  /\ Request.hash user_request ∉ proposed (duplicate_manager_ s).
Proof.
  unfold ProcessNewRequest, verify_message, check_and_add_proposed, stat.
  unfold_monad.
  destruct (unsigned context); [no_such_event|].
  destruct (Z.eqb_spec (CheckIfExecuted (Request.hash user_request)
                          (duplicate_manager_ s)) 0) as [Hex|];
    [|simpl; no_such_event].
  simpl.
  destruct (Z.eqb_spec (self_id cfg) (GetPrimaryOfNode (info s) (self_id cfg)))
    as [Hp|]; [|simpl; no_such_event].
  simpl. destruct (verifier_ cfg) as [v|]; [|done]. simpl.
  destruct (VerifyMessage v _ _) eqn:Hv; [|simpl; no_such_event].
  simpl. destruct (pre_verify_fails cfg user_request) eqn:Hpre;
    [no_such_event|].
  simpl.
  destruct (decide (Request.hash user_request ∈ proposed (duplicate_manager_ s)))
    as [Hin|Hnin].
  - replace (CheckAndAddProposed (Request.hash user_request)
               (duplicate_manager_ s)) with (true, duplicate_manager_ s)
      by (unfold CheckAndAddProposed; by rewrite decide_True).
    simpl. no_such_event.
  - intros _ _. repeat split; try done. by exists v.
Qed.

(** A loop whose bound is the size of the vector it walks visits every
    element once, in order. *)
Lemma for_index_all (f : Z -> Event) (rest : list Z) : forall (i : Z) s,
  for_index (fun node => emit (f node)) i (i + Z.of_nat (length rest)) rest s
  = Some (tt, s, map f rest).
Proof.
  induction rest as [|node rest IH]; intros i s; cbn [for_index map].
  - replace (i <? i + Z.of_nat (length (@nil Z))) with false; [done|].
    symmetry. apply Z.ltb_ge. simpl. lia.
  - replace (i <? i + Z.of_nat (length (node :: rest))) with true
      by (symmetry; apply Z.ltb_lt; simpl; lia).
    replace (i + Z.of_nat (length (node :: rest)))
      with ((i + 1) + Z.of_nat (length rest)) by (simpl; lia).
    unfold bind, emit. by rewrite IH.
Qed.

(** A loop whose bound stays within the vector visits the elements below the
    bound; one whose bound exceeds the size of the vector runs off its end. *)
Lemma for_index_prefix (f : Z -> Event) (rest : list Z) : forall (i bound : Z) s,
  bound <= i + Z.of_nat (length rest) ->
  for_index (fun node => emit (f node)) i bound rest s
  = Some (tt, s, map f (take (Z.to_nat (bound - i)) rest)).
Proof.
  induction rest as [|node rest IH]; intros i bound s Hb; cbn [for_index].
  - destruct (Z.ltb_spec i bound) as [Hlt|Hge]; [simpl in Hb; lia|].
    by rewrite take_nil.
  - destruct (Z.ltb_spec i bound) as [Hlt|Hge].
    + unfold bind, emit. rewrite IH by (simpl in Hb; lia).
      replace (Z.to_nat (bound - i)) with (S (Z.to_nat (bound - (i + 1))))
        by lia.
      done.
    + by replace (Z.to_nat (bound - i)) with 0%nat by lia.
Qed.

Lemma for_index_overrun (f : Z -> Event) (rest : list Z) : forall (i bound : Z) s,
  i + Z.of_nat (length rest) < bound ->
  for_index (fun node => emit (f node)) i bound rest s = None.
Proof.
  induction rest as [|node rest IH]; intros i bound s Hb; cbn [for_index].
  - destruct (Z.ltb_spec i bound) as [Hlt|Hge]; [done|simpl in Hb; lia].
  - destruct (Z.ltb_spec i bound) as [Hlt|Hge]; [|simpl in Hb; lia].
    unfold bind, emit. by rewrite IH by (simpl in Hb; lia).
Qed.

(** What [ProcessProposeMsg] does once the message manager reports a state
    change for the proposal: it reads the sequence number through the pointer
    it has just moved away, before it looks at the level of the slot.  The
    run is undefined at either level, and no prepare is sent. *)
Lemma propose_state_changed cfg sig topology request s :
  fst (AddConsensusMsg sig request (store s)) = STATE_CHANGED ->
  propose cfg sig topology request s = None.
Proof.
  intros Hadd. unfold propose, add_consensus_msg, stat, moved_from, deref.
  unfold_monad. by rewrite Hadd.
Qed.

(** Any other answer of the message manager ends [ProcessProposeMsg] with
    the result code and no message sent. *)
Lemma propose_state_kept cfg sig topology request s :
  fst (AddConsensusMsg sig request (store s)) <> STATE_CHANGED ->
  propose cfg sig topology request s
  = Some (result_code (fst (AddConsensusMsg sig request (store s))),
          mkState (info s) (snd (AddConsensusMsg sig request (store s)))
                  (duplicate_manager_ s) (request_complained_ s),
          [Stat "IncPropose"; Stat "RecordStateTime(pre-prepare)";
           CallAddConsensusMsg sig request]).
Proof.
  intros Hadd. unfold propose, add_consensus_msg, stat, moved_from, deref.
  unfold_monad. simpl.
  by destruct (fst (AddConsensusMsg sig request (store s))).
Qed.

(** What [ProcessPrepareMsg] does on a state change, once the message is
    admitted: it raises the highest prepared sequence number, signs the commit
    if asked to, and then
    - with the slot at [READY_COMMIT], the global primary hands the commit to
      [BroadCast] and any other replica sends nothing;
    - otherwise the commit is sent once to every member of the local shard. *)
Lemma ProcessPrepareMsg_state_changed cfg context request s sig st1 commit :
  misrouted cfg (info s) request = false ->
  context = Some {| context_signature := sig |} ->
  signature sig <> EmptyString ->
  Request.is_recovery request = false ->
  AddConsensusMsg sig request (store s) = (STATE_CHANGED, st1) ->
  sign_commit cfg (Request.set_data_signature SignatureInfo_clear
                     (NewRequest TYPE_COMMIT request (self_id cfg)))
  = Some commit ->
  let raise := GetHighestPreparedSeq st1 <? Request.seq request in
  let st2 := if raise then SetHighestPreparedSeq (Request.seq request) st1
             else st1 in
  let shard := GetShardOfNode (info s) (self_id cfg) in
  ProcessPrepareMsg cfg context request s
  = Some (0,
          mkState (info s) st2 (duplicate_manager_ s) (request_complained_ s),
          CallAddConsensusMsg sig request
          :: (if raise then [CallSetHighestPreparedSeq (Request.seq request)]
              else [])
          ++ match GetTransactionState (Request.seq request) st2 with
             | READY_COMMIT =>
                 Stat "RecordStateTime(prepare)"
                 :: (if self_id cfg =? GetCurrentPrimary (info s)
                     then [BroadCast commit] else [])
             | _ => map (SendMessage commit) (GetNodesInShard (info s) shard)
             end).
Proof.
  intros Hm -> Hsig Hrec Hadd Hsign raise st2 shard.
  assert (Hloop : forall s0 : State MM,
    for_index (fun node => emit (SendMessage commit node)) 0
      (Z.of_nat (GetShardSize (info s) shard)) (GetNodesInShard (info s) shard) s0
    = Some (tt, s0, map (SendMessage commit) (GetNodesInShard (info s) shard))).
  { intros s0.
    rewrite (proj1 (shard_queries_agree (info s) shard)).
    apply (for_index_all (SendMessage commit) _ 0). }
  unfold ProcessPrepareMsg, add_consensus_msg, set_highest_prepared_seq, stat.
  unfold_monad. rewrite Hm. unfold unsigned. simpl.
  destruct (String.eqb_spec (signature sig) EmptyString); [done|].
  rewrite Hrec, Hadd. simpl. rewrite Hsign. subst raise st2.
  destruct (GetHighestPreparedSeq st1 <? Request.seq request); simpl.
  - destruct (GetTransactionState (Request.seq request)
                (SetHighestPreparedSeq (Request.seq request) st1));
      simpl; rewrite ?Hloop; simpl; rewrite ?app_nil_r;
      first [done | by destruct (self_id cfg =? GetCurrentPrimary (info s))].
  - destruct (GetTransactionState (Request.seq request) st1);
      simpl; rewrite ?Hloop; simpl; rewrite ?app_nil_r;
      first [done | by destruct (self_id cfg =? GetCurrentPrimary (info s))].
Qed.

End ReplicatorFacts.

(** ** The topology claims *)

(** C10. For every shard id, with or without an entry, [GetShardSize] is the
    length of the list [GetNodesInShard] returns; without an entry the two
    queries return 0 and the empty list. *)
Theorem GetShardSize_is_length_GetNodesInShard (s : SystemInfo) (shard_id : Z) :
  GetShardSize s shard_id = length (GetNodesInShard s shard_id)
  /\ (shard_to_nodes_ s !! shard_id = None ->
      GetShardSize s shard_id = 0%nat /\ GetNodesInShard s shard_id = []).
Proof.
  unfold GetShardSize, GetNodesInShard.
  destruct (shard_to_nodes_ s !! shard_id); [|done].
  split; [done|]. discriminate.
Qed.

Lemma GetShardSize_is_length_GetNodesInShard_witness :
  shard_to_nodes_ four_in_two !! 7 = None
  /\ GetShardSize four_in_two 7 = length (GetNodesInShard four_in_two 7)
  /\ GetShardSize four_in_two 7 = 0%nat /\ GetNodesInShard four_in_two 7 = [].
Proof.
  assert (H : shard_to_nodes_ four_in_two !! 7 = None) by (vm_compute; reflexivity).
  destruct (GetShardSize_is_length_GetNodesInShard four_in_two 7) as [H1 H2].
  split; [exact H|]. split; [exact H1|]. exact (H2 H).
Defined.

(** C9, as the code has it. [SetShardCount] never fails: whether or not
    replicas are assigned, it sets the shard count to [S], clears the
    node-to-shard, shard-to-nodes and shard-primary mappings, and leaves the
    roster, the primary and the view alone. *)
Theorem SetShardCount_always_clears (S : nat) (s : SystemInfo) :
  shard_count_ (SetShardCount S s) = S
  /\ node_to_shard_ (SetShardCount S s) = ∅
  /\ shard_to_nodes_ (SetShardCount S s) = ∅
  /\ shard_primaries_ (SetShardCount S s) = ∅
  /\ replicas_ (SetShardCount S s) = replicas_ s
  /\ primary_id_ (SetShardCount S s) = primary_id_ s
  /\ view_ (SetShardCount S s) = view_ s.
Proof. repeat split. Qed.

(** C9 fails as stated: with replicas 1 to 4 assigned to two shards,
    [SetShardCount 2] does not leave the state unchanged; it wipes the
    assignment of replica 1. *)
Lemma SetShardCount_assigned_not_unchanged :
  GetShardOfNode four_in_two 1 = 0
  /\ node_to_shard_ four_in_two !! 1 = Some 0
  /\ SetShardCount 2 four_in_two <> four_in_two
  /\ GetShardOfNode (SetShardCount 2 four_in_two) 1 = UINT32_MAX.
Proof.
  split; [vm_compute; reflexivity|]. split; [vm_compute; reflexivity|].
  split; [|vm_compute; reflexivity].
  intros H. apply (f_equal (fun st => node_to_shard_ st !! 1)) in H.
  vm_compute in H. discriminate H.
Qed.

(** C4 fails as stated: replica 1 is well formed and not registered, yet with
    a shard count of 0 [AddReplica] does not append it. *)
Lemma AddReplica_uninitialised_not_appended :
  malformed (replica_n 1) = false
  /\ replica_exist (replica_n 1) (replicas_ (blank 0)) = false
  /\ replicas_ (AddReplica (replica_n 1) (blank 0))
     <> replicas_ (blank 0) ++ [replica_n 1]
  /\ AddReplica (replica_n 1) (blank 0) = blank 0.
Proof.
  split; [reflexivity|]. split; [reflexivity|]. split; [|reflexivity].
  vm_compute. discriminate.
Qed.

(** C4, as the code has it. [AddReplica] leaves all state unchanged when the
    replica is malformed (id 0, empty ip or port 0), when a replica with the
    same id is registered, or when the shard count is still 0; so a repeated
    identical call is a no-op.  Otherwise (the shard lists being vectors,
    shorter than [SIZE_MAX]) it appends the replica to the roster and assigns
    it to a shard of minimum size, the one with the smallest id among those:
    the id is appended to that shard's list, the other lists stay, and the
    replica becomes the shard's coordinator when the shard had none. *)
Theorem AddReplica_spec (r : ReplicaInfo) (s : SystemInfo) :
  (malformed r = true \/ replica_exist r (replicas_ s) = true
   \/ shard_count_ s = 0%nat -> AddReplica r s = s)
  /\ AddReplica r (AddReplica r s) = AddReplica r s
  /\ (malformed r = false -> replica_exist r (replicas_ s) = false ->
      shard_count_ s <> 0%nat ->
      (forall j, (j < shard_count_ s)%nat ->
         Z.of_nat (GetShardSize s (Z.of_nat j)) < SIZE_MAX) ->
      exists t : nat,
        (t < shard_count_ s)%nat
        /\ (forall j, (j < shard_count_ s)%nat ->
              (GetShardSize s (Z.of_nat t) <= GetShardSize s (Z.of_nat j))%nat)
        /\ (forall j, (j < t)%nat ->
              (GetShardSize s (Z.of_nat t) < GetShardSize s (Z.of_nat j))%nat)
        /\ replicas_ (AddReplica r s) = replicas_ s ++ [r]
        /\ node_to_shard_ (AddReplica r s)
           = <[u32 (id r) := Z.of_nat t]> (node_to_shard_ s)
        /\ GetShardOfNode (AddReplica r s) (u32 (id r)) = Z.of_nat t
        /\ GetNodesInShard (AddReplica r s) (Z.of_nat t)
           = GetNodesInShard s (Z.of_nat t) ++ [u32 (id r)]
        /\ (forall k, k <> Z.of_nat t ->
              GetNodesInShard (AddReplica r s) k = GetNodesInShard s k)
        /\ shard_primaries_ (AddReplica r s)
           = match shard_primaries_ s !! Z.of_nat t with
             | Some _ => shard_primaries_ s
             | None => <[Z.of_nat t := u32 (id r)]> (shard_primaries_ s)
             end
        /\ shard_count_ (AddReplica r s) = shard_count_ s
        /\ primary_id_ (AddReplica r s) = primary_id_ s
        /\ view_ (AddReplica r s) = view_ s).
Proof.
  split; [|split].
  - unfold AddReplica, AddReplicaToShard.
    intros [->|[H|H]]; [done| |].
    + rewrite H. by destruct (malformed r).
    + rewrite H. simpl. by repeat case_match.
  - destruct (AddReplica_cases r s) as [[_ E]|(Hs & Hc & E)];
      [by rewrite !E|].
    unfold AddReplica at 1. destruct (malformed r); [done|].
    replace (replica_exist r (replicas_ (AddReplica r s))) with true; [done|].
    rewrite E. unfold AddReplicaToShard.
    destruct (Nat.eqb_spec (shard_count_ s) 0); [done|]. simpl.
    unfold replica_exist. rewrite existsb_app. simpl.
    rewrite Z.eqb_refl. by rewrite orb_true_r.
  - intros Hm He Hc Hb. unfold AddReplica. rewrite Hm, He.
    destruct (scan_shards_target (shard_count_ s) (shard_to_nodes_ s))
      as (t & Ht & Htt & Hmin & Hfirst); [lia| |].
    { intros j Hj. rewrite <- GetShardSize_len. by apply Hb. }
    pose proof (fun k => AddReplicaToShard_lookup r s k Hc) as Hlk.
    simpl in Hlk. rewrite Htt in Hlk.
    exists t. split; [done|].
    split; [intros j Hj; rewrite !GetShardSize_len; by apply Hmin|].
    split; [intros j Hj; rewrite !GetShardSize_len; by apply Hfirst|].
    assert (Hnode : node_to_shard_ (AddReplicaToShard r s)
                    = <[u32 (id r) := Z.of_nat t]> (node_to_shard_ s)).
    { unfold AddReplicaToShard.
      destruct (Nat.eqb_spec (shard_count_ s) 0); [done|]. simpl.
      by rewrite Htt. }
    split; [|split; [done|split; [|split; [|split]]]].
    + unfold AddReplicaToShard. by destruct (Nat.eqb_spec (shard_count_ s) 0).
    + unfold GetShardOfNode. by rewrite Hnode, lookup_insert_eq.
    + rewrite !GetNodesInShard_default, Hlk. by rewrite decide_True.
    + intros k Hk. rewrite !GetNodesInShard_default, Hlk.
      by rewrite decide_False.
    + unfold AddReplicaToShard.
      destruct (Nat.eqb_spec (shard_count_ s) 0); [done|]. simpl.
      by rewrite Htt.
Qed.

Lemma AddReplica_spec_witness :
  AddReplica (replica_n 4) four_in_two = four_in_two
  /\ exists t : nat,
       (t < 2)%nat
       /\ GetNodesInShard (AddReplica (replica_n 3) (add_replicas [replica_n 1; replica_n 2] (blank 2))) (Z.of_nat t)
          = GetNodesInShard (add_replicas [replica_n 1; replica_n 2] (blank 2)) (Z.of_nat t) ++ [3].
Proof.
  destruct (AddReplica_spec (replica_n 4) four_in_two) as (Hnoop & _ & _).
  split.
  - apply Hnoop. right. left. vm_compute. reflexivity.
  - destruct (AddReplica_spec (replica_n 3)
                (add_replicas [replica_n 1; replica_n 2] (blank 2)))
      as (_ & _ & Hadd).
    destruct Hadd as (t & Ht & _ & _ & _ & _ & _ & Hnodes & _).
    + vm_compute. reflexivity.
    + vm_compute. reflexivity.
    + vm_compute. lia.
    + intros j Hj. change (shard_count_ _) with 2%nat in Hj.
      destruct j as [|[|j]]; [vm_compute; reflexivity ..|lia].
    + exists t. split; [exact Ht|exact Hnodes].
Defined.

(** C3. For every shard count [S >= 1] and every [k] (a roster being a
    vector, with fewer than [SIZE_MAX] entries): after [k] successful
    [AddReplica] calls from the empty assignment, the sizes of any two
    shards with ids below [S] differ by at most 1. *)
Theorem shard_load_balance (S k : nat) (s0 : SystemInfo)
    (rs : list ReplicaInfo) (a b : nat) :
  (1 <= S)%nat -> empty_assignment S s0 ->
  length rs = k -> all_succeed rs s0 = true -> Z.of_nat k < SIZE_MAX ->
  (a < S)%nat -> (b < S)%nat ->
  (GetShardSize (add_replicas rs s0) (Z.of_nat a)
   <= GetShardSize (add_replicas rs s0) (Z.of_nat b) + 1)%nat
  /\ (GetShardSize (add_replicas rs s0) (Z.of_nat b)
      <= GetShardSize (add_replicas rs s0) (Z.of_nat a) + 1)%nat.
Proof.
  intros HS [Hc (_ & Hn & _)] Hk _ Hlt Ha Hb. subst k.
  destruct (add_replicas_balanced rs s0 0) as [_ [Hbal _]].
  - simpl. lia.
  - split; intros x **; unfold shard_len; rewrite Hn, lookup_empty; simpl; lia.
  - rewrite Hc in Hbal. rewrite !GetShardSize_len. split; by apply Hbal.
Qed.

Lemma shard_load_balance_witness :
  (GetShardSize four_in_two 0 <= GetShardSize four_in_two 1 + 1)%nat
  /\ (GetShardSize four_in_two 1 <= GetShardSize four_in_two 0 + 1)%nat.
Proof.
  apply (shard_load_balance 2 4 (blank 2)
           [replica_n 1; replica_n 2; replica_n 3; replica_n 4] 0 1).
  - lia.
  - vm_compute. auto.
  - reflexivity.
  - vm_compute. reflexivity.
  - vm_compute. reflexivity.
  - lia.
  - lia.
Defined.

(** C5. In every state reachable by [SetShardCount] and [AddReplica] calls,
    every shard with at least one member has exactly one entry in
    [shard_primaries_], and that coordinator is a member of the shard's
    [shard_to_nodes_] list. *)
Theorem coordinator_existence (s : SystemInfo) (shard : Z) :
  reachable s -> GetShardSize s shard <> 0%nat ->
  exists p, shard_primaries_ s !! shard = Some p
    /\ (forall q, shard_primaries_ s !! shard = Some q -> q = p)
    /\ GetPrimaryOfShard s shard = p
    /\ p ∈ GetNodesInShard s shard.
Proof.
  intros Hr Hsz. destruct (reachable_coordinated s Hr) as [Hsome Hmem].
  destruct (Hsome shard) as [p Hp].
  - rewrite GetShardSize_len in Hsz. unfold shard_len in Hsz.
    intros E. rewrite E in Hsz. done.
  - exists p. split; [done|]. split; [intros q; rewrite Hp; congruence|].
    split; [unfold GetPrimaryOfShard; by rewrite Hp|].
    rewrite GetNodesInShard_default. by apply Hmem.
Qed.

Lemma coordinator_existence_witness :
  exists p, shard_primaries_ four_in_two !! 1 = Some p
    /\ (forall q, shard_primaries_ four_in_two !! 1 = Some q -> q = p)
    /\ GetPrimaryOfShard four_in_two 1 = p
    /\ p ∈ GetNodesInShard four_in_two 1.
Proof.
  apply (coordinator_existence four_in_two 1).
  - apply reachable_add_replicas. apply reachable_fresh. vm_compute. auto.
  - vm_compute. discriminate.
Defined.

(** ** The replicator claims *)

Section ReplicatorClaims.

Context {MM : Type} {store_ops : MessageStore MM}.

(** C2. For every message and every context: when this replica is not the
    coordinator of its shard and the sender is not in its shard, each of
    [ProcessProposeMsg], [ProcessPrepareMsg] and [ProcessCommitMsg] hands the
    message, unchanged, to the communicator for the coordinator of the
    receiver's shard and returns -3; it makes no call on the message manager
    (no message enters a slot) nor on the duplicate guard, and the state is
    as it was. *)
Theorem ingress_routing (cfg : Config) (context : option Context)
    (request : Request) (s : State MM) :
  self_id cfg <> GetPrimaryOfNode (info s) (self_id cfg) ->
  NodesInSameShard (info s) (Request.sender_id request) (self_id cfg) = false ->
  let coordinator :=
    GetPrimaryOfShard (info s) (GetShardOfNode (info s) (self_id cfg)) in
  ProcessProposeMsg cfg context request s
    = Some (-3, s, [SendMessage request coordinator])
  /\ ProcessPrepareMsg cfg context request s
    = Some (-3, s, [SendMessage request coordinator])
  /\ ProcessCommitMsg cfg context request s
    = Some (-3, s, [SendMessage request coordinator]).
Proof.
  intros Hp Hs coordinator.
  pose proof (misrouted_true cfg s request Hp Hs) as Hm.
  unfold ProcessProposeMsg, ProcessPrepareMsg, ProcessCommitMsg, retransmit.
  unfold_monad. by rewrite Hm.
Qed.

(** C1, as the code has it. For every signed request (a context with a
    non-empty signature) whose hash the duplicate guard records as executed
    with a sequence number [seq] other than 0, [ProcessNewRequest] starts no
    consensus: it makes no call on the message manager (no [AssignNextSeq],
    no slot) and leaves the state as it was; it sets the [seq] of the request,
    hands it to [SendResponse] and returns -2. *)
Theorem executed_request_replayed (cfg : Config) (context : option Context)
    (user_request : Request) (s : State MM) (seq : Z) :
  unsigned context = false ->
  executed (duplicate_manager_ s) !! Request.hash user_request = Some seq ->
  seq <> 0 ->
  ProcessNewRequest cfg context user_request s
  = Some (-2, s, [SendResponse (Request.set_seq seq user_request)]).
Proof.
  intros Hc Hex Hseq. unfold ProcessNewRequest. unfold_monad.
  rewrite Hc. unfold CheckIfExecuted. rewrite Hex. simpl.
  by destruct (Z.eqb_spec seq 0).
Qed.

(** C6. Whenever [ProcessNewRequest] reaches the sequence assignment (the
    request is signed, not executed and not proposed, this replica is the
    coordinator of its shard, and both verifications pass) and
    [AssignNextSeq] fails: the call returns -2; the proposed mark of the hash
    is erased, which leaves the duplicate guard as it was before the call;
    and a [TYPE_RESPONSE] message with [ret] -2 and the hash of the request
    is sent to the [proxy_id] of the request. *)
Theorem backpressure_rolls_back (cfg : Config) (context : option Context)
    (user_request : Request) (s : State MM) (v : SignatureVerifier)
    (st' : MM) :
  unsigned context = false ->
  CheckIfExecuted (Request.hash user_request) (duplicate_manager_ s) = 0 ->
  self_id cfg = GetPrimaryOfNode (info s) (self_id cfg) ->
  verifier_ cfg = Some v ->
  VerifyMessage v (Request.data user_request)
    (Request.data_signature user_request) = true ->
  pre_verify_fails cfg user_request = false ->
  Request.hash user_request ∉ proposed (duplicate_manager_ s) ->
  AssignNextSeq (store s) = (None, st') ->
  exists response,
    ProcessNewRequest cfg context user_request s
    = Some (-2,
            mkState (info s) st' (duplicate_manager_ s) (request_complained_ s),
            [Stat "IncClientRequest";
             CallCheckAndAddProposed (Request.hash user_request);
             CallAssignNextSeq;
             CallEraseProposed (Request.hash user_request);
             Stat "SeqFail";
             SendMessage response (Request.proxy_id user_request)])
    /\ Request.type response = TYPE_RESPONSE
    /\ Request.ret response = -2
    /\ Request.hash response = Request.hash user_request
    /\ Request.proxy_id response = Request.proxy_id user_request
    /\ Request.sender_id response = self_id cfg.
Proof.
  intros Hc Hex Hp Hv Hvalid Hpre Hprop Hseq.
  destruct (EraseProposed_CheckAndAddProposed _ _ Hprop) as [Hfst Herase].
  exists (Request.set_hash (Request.hash user_request)
            (Request.set_ret (-2)
              (Request.set_proxy_id (Request.proxy_id user_request)
                (Request.set_sender_id (self_id cfg)
                  (Request.set_type TYPE_RESPONSE Request.default_instance))))).
  split; [|by repeat split].
  unfold ProcessNewRequest, verify_message, check_and_add_proposed,
    assign_next_seq, erase_proposed, stat.
  unfold_monad. rewrite Hc, Hex. simpl.
  destruct (Z.eqb_spec (self_id cfg) (GetPrimaryOfNode (info s) (self_id cfg)));
    [|done].
  simpl. rewrite Hv, Hvalid. simpl. rewrite Hpre, Hfst. simpl.
  rewrite Hseq. simpl. by rewrite Herase.
Qed.

End ReplicatorClaims.

(** C1 fails as stated: an unsigned request whose hash was executed with
    sequence number 1 is not sent back; the call returns -2 and sends
    nothing. *)
Lemma unsigned_executed_request_not_replayed :
  executed (MarkExecuted "H" 1 no_duplicates) !! "H" = Some 1
  /\ ProcessNewRequest (replica_cfg 3) None (request_H TYPE_NEW_TXNS 9 0)
       (scripted four_in_two [Some 1] [] IDLE (MarkExecuted "H" 1 no_duplicates))
     = Some (-2,
             scripted four_in_two [Some 1] [] IDLE
               (MarkExecuted "H" 1 no_duplicates),
             []).
Proof. split; vm_compute; reflexivity. Qed.

Lemma executed_request_replayed_witness :
  ProcessNewRequest (replica_cfg 3) signed (request_H TYPE_NEW_TXNS 9 0)
    (scripted four_in_two [Some 1] [] IDLE (MarkExecuted "H" 1 no_duplicates))
  = Some (-2,
          scripted four_in_two [Some 1] [] IDLE
            (MarkExecuted "H" 1 no_duplicates),
          [SendResponse (request_H TYPE_NEW_TXNS 9 1)]).
Proof.
  apply (executed_request_replayed (replica_cfg 3) signed
           (request_H TYPE_NEW_TXNS 9 0)
           (scripted four_in_two [Some 1] [] IDLE
              (MarkExecuted "H" 1 no_duplicates)) 1).
  - reflexivity.
  - vm_compute. reflexivity.
  - lia.
Defined.

Lemma ingress_routing_witness :
  ProcessProposeMsg (replica_cfg 3) signed (request_H TYPE_PRE_PREPARE 2 1)
    (scripted four_in_two [] [STATE_CHANGED] READY_PREPARE no_duplicates)
  = Some (-3,
          scripted four_in_two [] [STATE_CHANGED] READY_PREPARE no_duplicates,
          [SendMessage (request_H TYPE_PRE_PREPARE 2 1) 1])
  /\ ProcessPrepareMsg (replica_cfg 3) signed (request_H TYPE_PRE_PREPARE 2 1)
    (scripted four_in_two [] [STATE_CHANGED] READY_PREPARE no_duplicates)
  = Some (-3,
          scripted four_in_two [] [STATE_CHANGED] READY_PREPARE no_duplicates,
          [SendMessage (request_H TYPE_PRE_PREPARE 2 1) 1])
  /\ ProcessCommitMsg (replica_cfg 3) signed (request_H TYPE_PRE_PREPARE 2 1)
    (scripted four_in_two [] [STATE_CHANGED] READY_PREPARE no_duplicates)
  = Some (-3,
          scripted four_in_two [] [STATE_CHANGED] READY_PREPARE no_duplicates,
          [SendMessage (request_H TYPE_PRE_PREPARE 2 1) 1]).
Proof.
  apply (ingress_routing (replica_cfg 3) signed (request_H TYPE_PRE_PREPARE 2 1)
           (scripted four_in_two [] [STATE_CHANGED] READY_PREPARE no_duplicates)).
  - vm_compute. discriminate.
  - vm_compute. reflexivity.
Defined.

Lemma backpressure_rolls_back_witness :
  exists response,
    ProcessNewRequest (replica_cfg 1) signed (request_H TYPE_NEW_TXNS 9 0)
      (scripted four_in_two [None] [] IDLE no_duplicates)
    = Some (-2, scripted four_in_two [] [] IDLE no_duplicates,
            [Stat "IncClientRequest"; CallCheckAndAddProposed "H";
             CallAssignNextSeq; CallEraseProposed "H"; Stat "SeqFail";
             SendMessage response 9])
    /\ Request.type response = TYPE_RESPONSE
    /\ Request.ret response = -2
    /\ Request.hash response = "H"
    /\ Request.proxy_id response = 9
    /\ Request.sender_id response = 1.
Proof.
  apply (backpressure_rolls_back (replica_cfg 1) signed
           (request_H TYPE_NEW_TXNS 9 0)
           (scripted four_in_two [None] [] IDLE no_duplicates) accept_all
           (mkScript [] [] IDLE 1 0)).
  - reflexivity.
  - vm_compute. reflexivity.
  - vm_compute. reflexivity.
  - reflexivity.
  - reflexivity.
  - reflexivity.
  - apply not_elem_of_empty.
  - reflexivity.
Defined.

(** C7, on the code. Replicas 1 to 4 in two shards, coordinators 1 and 2,
    global primary 1.  The primary receives the PREPARE of coordinator 2,
    [AddConsensusMsg] reports [STATE_CHANGED] and the slot is at
    [READY_COMMIT]: the COMMIT is handed to [BroadCast], which addresses the
    whole roster of the communicator, replicas 3 and 4 included, not the two
    coordinators only. *)
Theorem outer_commit_reaches_every_replica :
  let prepare := request_H TYPE_PREPARE 2 1 in
  let commit :=
    Request.set_data_signature SignatureInfo_clear
      (NewRequest TYPE_COMMIT prepare 1) in
  let roster :=
    Transport.mkReplicaCommunicator (replicas_ four_in_two) [] true in
  GetCurrentPrimary four_in_two = 1
  /\ map (GetPrimaryOfShard four_in_two) [0; 1] = [1; 2]
  /\ ProcessPrepareMsg (replica_cfg 1) signed prepare
       (scripted four_in_two [] [STATE_CHANGED] READY_COMMIT no_duplicates)
     = Some (0,
             mkState four_in_two (mkScript [] [] READY_COMMIT 1 1)
                     no_duplicates [],
             [CallAddConsensusMsg {| signature := "sig" |} prepare;
              CallSetHighestPreparedSeq 1;
              Stat "RecordStateTime(prepare)";
              BroadCast commit])
  /\ map (fun p => id (fst p)) (Transport.BroadCast roster commit)
     = [1; 2; 3; 4].
Proof. repeat split; vm_compute; reflexivity. Qed.

(** C8, on the code. Replicas 1 to 4 in one shard, coordinator 1.  Replica 2
    receives the PRE_PREPARE of the coordinator and [AddConsensusMsg] reports
    [STATE_CHANGED].  The request was moved into that call, and the level of
    the slot is looked up with [request->seq()], read through the null
    pointer: the run is undefined whatever the phase of the slot, and no
    PREPARE is sent to any of the four members. *)
Theorem inner_prepare_sent_to_nobody :
  let propose := request_H TYPE_PRE_PREPARE 1 1 in
  GetNodesInShard four_in_one (GetShardOfNode four_in_one 2) = [1; 2; 3; 4]
  /\ forall phase : TransactionStatue,
       ProcessProposeMsg (replica_cfg 2) signed propose
         (scripted four_in_one [] [STATE_CHANGED] phase no_duplicates)
       = None.
Proof.
  split; [vm_compute; reflexivity|]. intros phase. vm_compute. reflexivity.
Qed.

(** ** Further properties of the topology *)

Section TopologyRuns.

Implicit Types (s : SystemInfo) (m : gmap Z (list Z)) (r : ReplicaInfo).

Lemma shard_entry_lookup_Some m i k l :
  shard_entry m i !! k = Some l -> m !! k = Some l \/ (l = [] /\ k = i).
Proof.
  unfold shard_entry. destruct (m !! i) eqn:E; [by left|].
  destruct (decide (i = k)) as [->|Hne].
  - rewrite lookup_insert_eq. intros [= <-]. by right.
  - rewrite lookup_insert_ne by done. by left.
Qed.

Lemma scan_shards_lookup_Some count m k l :
  scan_map (scan_shards count m) !! k = Some l ->
  m !! k = Some l \/ (l = [] /\ exists i, (i < count)%nat /\ k = Z.of_nat i).
Proof.
  revert l. induction count as [|n IH]; intros l; [by left|].
  rewrite scan_shards_S. unfold scan_step.
  case (_ <? _); simpl; intros Hl;
    apply shard_entry_lookup_Some in Hl as [Hl|[-> ->]];
    try (right; split; [done|]; exists n; split; [lia|done]);
    destruct (IH _ Hl) as [?|[? (i & Hi & ->)]]; try by left.
  all: right; split; [done|]; exists i; split; [lia|done].
Qed.

(** The target of the search loop is a shard id below the count, whatever
    the sizes are. *)
Lemma scan_shards_target_range count m :
  (0 < count)%nat ->
  exists t, (t < count)%nat /\ scan_target (scan_shards count m) = Z.of_nat t.
Proof.
  intros Hpos.
  assert (H : scan_target (scan_shards count m) = 0
              \/ exists t, (t < count)%nat
                   /\ scan_target (scan_shards count m) = Z.of_nat t).
  { clear Hpos. induction count as [|n IH]; [by left|].
    rewrite scan_shards_S. unfold scan_step. case (_ <? _); simpl.
    - right. exists n. split; [lia|done].
    - destruct IH as [IH|(t & Ht & IH)]; [by left|].
      right. exists t. split; [lia|done]. }
  destruct H as [H|H]; [|done]. exists 0%nat. split; [done|]. by rewrite H.
Qed.

(** The fields of the state after [AddReplicaToShard] went through. *)
Lemma AddReplicaToShard_fields r s :
  shard_count_ s <> 0%nat ->
  exists t, (t < shard_count_ s)%nat
    /\ scan_target (scan_shards (shard_count_ s) (shard_to_nodes_ s))
       = Z.of_nat t
    /\ replicas_ (AddReplicaToShard r s) = replicas_ s ++ [r]
    /\ shard_count_ (AddReplicaToShard r s) = shard_count_ s
    /\ node_to_shard_ (AddReplicaToShard r s)
       = <[u32 (id r) := Z.of_nat t]> (node_to_shard_ s)
    /\ shard_primaries_ (AddReplicaToShard r s)
       = match shard_primaries_ s !! Z.of_nat t with
         | Some _ => shard_primaries_ s
         | None => <[Z.of_nat t := u32 (id r)]> (shard_primaries_ s)
         end
    /\ (forall k, GetNodesInShard (AddReplicaToShard r s) k
          = if decide (k = Z.of_nat t)
            then GetNodesInShard s (Z.of_nat t) ++ [u32 (id r)]
            else GetNodesInShard s k)
    /\ (forall k l, shard_to_nodes_ (AddReplicaToShard r s) !! k = Some l ->
          is_Some (shard_to_nodes_ s !! k)
          \/ exists i, (i < shard_count_ s)%nat /\ k = Z.of_nat i).
Proof.
  intros Hc.
  destruct (scan_shards_target_range (shard_count_ s) (shard_to_nodes_ s))
    as (t & Ht & Htt); [lia|].
  pose proof (fun k => AddReplicaToShard_lookup r s k Hc) as Hlk.
  simpl in Hlk. rewrite Htt in Hlk.
  exists t. split; [done|]. split; [done|].
  unfold AddReplicaToShard in *.
  destruct (Nat.eqb_spec (shard_count_ s) 0) as [|_]; [done|]. simpl in *.
  rewrite Htt in *. repeat split.
  - intros k. rewrite !GetNodesInShard_default. simpl. apply Hlk.
  - intros k l Hl. destruct (decide (k = Z.of_nat t)) as [->|Hne].
    { right. by exists t. }
    rewrite lookup_insert_ne in Hl by done.
    apply shard_entry_lookup_Some in Hl as [Hl|[_ ->]]; [|done].
    apply scan_shards_lookup_Some in Hl as [Hl|[_ Hi]]; [left; eauto|by right].
Qed.

Lemma reachable_run_calls cs : forall s, reachable s -> reachable (run_calls cs s).
Proof.
  induction cs as [|c cs IH]; intros s Hs; [done|].
  simpl. apply IH. by apply reachable_call.
Qed.

Lemma run_calls_snoc cs c s :
  run_calls (cs ++ [c]) s = run_call (run_calls cs s) c.
Proof. unfold run_calls. by rewrite fold_left_app. Qed.

Lemma reachable_within_shard_count s : reachable s -> within_shard_count s.
Proof.
  induction 1 as [s (Hn & Hl & Hp)|s c _ IH].
  - unfold within_shard_count. rewrite Hn, Hl, Hp.
    split; [|split]; intros ? ?; rewrite lookup_empty; done.
  - destruct c as [count|r]; simpl.
    + unfold within_shard_count. simpl.
      split; [|split]; intros ? ?; rewrite lookup_empty; done.
    + destruct (AddReplica_cases r s) as [[_ ->]|(_ & Hc & ->)]; [done|].
      destruct IH as (In & Il & Ip).
      destruct (AddReplicaToShard_fields r s Hc)
        as (t & Ht & _ & _ & Hcount & Hnode & Hprim & _ & Hkeys).
      unfold within_shard_count. rewrite Hcount. split; [|split].
      * intros n t'. rewrite Hnode. destruct (decide (u32 (id r) = n)) as [->|].
        -- rewrite lookup_insert_eq. intros [= <-]. lia.
        -- rewrite lookup_insert_ne by done. apply In.
      * intros k l Hl. destruct (Hkeys k l Hl) as [[l' Hl']|(i & Hi & ->)];
          [by eapply Il|lia].
      * intros k p. rewrite Hprim.
        destruct (shard_primaries_ s !! Z.of_nat t) eqn:E; [apply Ip|].
        destruct (decide (Z.of_nat t = k)) as [<-|]; [lia|].
        rewrite lookup_insert_ne by done. apply Ip.
Qed.

Lemma reachable_nodes_listed s : reachable s -> nodes_listed s.
Proof.
  induction 1 as [s (Hn & _)|s c _ IH].
  - intros n t. by rewrite Hn, lookup_empty.
  - destruct c as [count|r]; simpl.
    + intros n t. simpl. by rewrite lookup_empty.
    + destruct (AddReplica_cases r s) as [[_ ->]|(_ & Hc & ->)]; [done|].
      destruct (AddReplicaToShard_fields r s Hc)
        as (t & Ht & _ & _ & _ & Hnode & _ & Hlist & _).
      intros n t'. rewrite Hnode, Hlist.
      destruct (decide (u32 (id r) = n)) as [->|Hne].
      * rewrite lookup_insert_eq. intros [= <-]. rewrite decide_True by done.
        apply elem_of_app. right. by apply list_elem_of_singleton.
      * rewrite lookup_insert_ne by done. intros Hn. apply IH in Hn.
        destruct (decide (t' = Z.of_nat t)) as [->|]; [|done].
        apply elem_of_app. by left.
Qed.

Lemma reachable_primary_first s : reachable s -> primary_first s.
Proof.
  induction 1 as [s (_ & Hl & Hp)|s c _ IH].
  - intros t. rewrite GetNodesInShard_default, Hl, Hp, !lookup_empty. done.
  - destruct c as [count|r]; simpl.
    + intros t. rewrite GetNodesInShard_default. simpl.
      by rewrite !lookup_empty.
    + destruct (AddReplica_cases r s) as [[_ ->]|(_ & Hc & ->)]; [done|].
      destruct (AddReplicaToShard_fields r s Hc)
        as (t & Ht & _ & _ & _ & _ & Hprim & Hlist & _).
      intros k. rewrite Hprim, Hlist. pose proof (IH (Z.of_nat t)) as IHt.
      destruct (decide (k = Z.of_nat t)) as [->|Hne].
      * destruct (shard_primaries_ s !! Z.of_nat t) eqn:E.
        -- rewrite E. destruct (GetNodesInShard s (Z.of_nat t)); done.
        -- rewrite lookup_insert_eq.
           destruct (GetNodesInShard s (Z.of_nat t)); done.
      * destruct (shard_primaries_ s !! Z.of_nat t) eqn:E; [apply IH|].
        rewrite lookup_insert_ne by done. apply IH.
Qed.

(** *** Dealing the replicas out *)

Lemma dealt_succ count k i :
  (0 < count)%nat -> (i < count)%nat ->
  dealt count (S k) i
  = (dealt count k i + (if decide (i = k mod count)%nat then 1 else 0))%nat.
Proof.
  intros Hc Hi. unfold dealt.
  pose proof (Nat.div_mod_eq k count) as Hk.
  pose proof (Nat.mod_upper_bound k count ltac:(lia)) as Hm.
  destruct (decide (k mod count + 1 < count)%nat) as [Hlt|Hge].
  - assert (Hq : (S k / count = k / count)%nat).
    { symmetry. apply (Nat.div_unique _ _ _ (k mod count + 1)); lia. }
    assert (Hr : (S k mod count = k mod count + 1)%nat).
    { symmetry. apply (Nat.mod_unique _ _ (k / count)); lia. }
    rewrite Hq, Hr.
    destruct (Nat.ltb_spec i (k mod count + 1)), (Nat.ltb_spec i (k mod count)),
      (decide (i = k mod count)%nat); lia.
  - assert (Hq : (S k / count = k / count + 1)%nat).
    { symmetry. apply (Nat.div_unique _ _ _ 0); lia. }
    assert (Hr : (S k mod count = 0)%nat).
    { symmetry. apply (Nat.mod_unique _ _ (k / count + 1)); lia. }
    rewrite Hq, Hr.
    destruct (Nat.ltb_spec i 0), (Nat.ltb_spec i (k mod count)),
      (decide (i = k mod count)%nat); lia.
Qed.

Lemma dealt_bounds count k i :
  (0 < count)%nat ->
  (k / count <= dealt count k i <= k + 1)%nat
  /\ ((i < k mod count)%nat -> dealt count k i = (k / count + 1)%nat)
  /\ ((k mod count <= i)%nat -> dealt count k i = (k / count)%nat).
Proof.
  intros Hc. unfold dealt.
  pose proof (Nat.div_mod_eq k count) as Hk.
  assert (k / count <= k)%nat by nia.
  destruct (Nat.ltb_spec i (k mod count)); repeat split; lia.
Qed.

(** With the sizes as dealt after [k] replicas, the search loop selects
    shard [k mod count]. *)
Lemma dealt_target m count k :
  (0 < count)%nat -> Z.of_nat k + 1 < SIZE_MAX ->
  (forall i, (i < count)%nat -> shard_len m (Z.of_nat i) = dealt count k i) ->
  scan_target (scan_shards count m) = Z.of_nat (k mod count).
Proof.
  intros Hc Hk Hlen.
  pose proof (Nat.mod_upper_bound k count ltac:(lia)) as Hm.
  destruct (scan_shards_target count m) as (t & Ht & -> & Hmin & Hfirst);
    [done| |].
  { intros j Hj. rewrite (Hlen j Hj).
    pose proof (dealt_bounds count k j Hc) as [? _]. lia. }
  f_equal.
  destruct (Nat.lt_trichotomy t (k mod count)) as [Hlt|[->|Hgt]]; [|done|].
  - specialize (Hmin (k mod count)%nat Hm).
    rewrite (Hlen t Ht), (Hlen _ Hm) in Hmin.
    pose proof (dealt_bounds count k t Hc) as (_ & Hbig & _).
    pose proof (dealt_bounds count k (k mod count) Hc) as (_ & _ & Hsmall).
    rewrite Hbig, Hsmall in Hmin; lia.
  - specialize (Hfirst (k mod count)%nat Hgt).
    rewrite (Hlen t Ht), (Hlen _ Hm) in Hfirst.
    pose proof (dealt_bounds count k t Hc) as ([? _] & _).
    pose proof (dealt_bounds count k (k mod count) Hc) as (_ & _ & Hsmall).
    rewrite Hsmall in Hfirst; lia.
Qed.

Lemma add_replicas_dealt rs : forall s k,
  shard_count_ s <> 0%nat ->
  Z.of_nat (k + length rs) < SIZE_MAX ->
  all_succeed rs s = true ->
  (forall i, (i < shard_count_ s)%nat ->
     shard_len (shard_to_nodes_ s) (Z.of_nat i) = dealt (shard_count_ s) k i) ->
  forall i, (i < shard_count_ s)%nat ->
    shard_len (shard_to_nodes_ (add_replicas rs s)) (Z.of_nat i)
    = dealt (shard_count_ s) (k + length rs) i.
Proof.
  induction rs as [|r rs IH]; intros s k Hc Hk Hok Hlen i Hi; simpl.
  - rewrite Nat.add_0_r. by apply Hlen.
  - simpl in Hk, Hok. apply andb_prop in Hok as [Hr Hok].
    destruct (AddReplica_cases r s) as [[Hf _]|(_ & _ & E)]; [congruence|].
    assert (Hcount : shard_count_ (AddReplica r s) = shard_count_ s)
      by apply AddReplica_shard_count.
    replace (k + S (length rs))%nat with (S k + length rs)%nat by lia.
    rewrite <- Hcount. apply IH; rewrite ?Hcount; try done; [lia|].
    intros j Hj. rewrite E. unfold shard_len.
    rewrite (AddReplicaToShard_lookup r s (Z.of_nat j) Hc).
    rewrite (dealt_target _ _ k) by (done || lia).
    rewrite dealt_succ by lia. rewrite <- (Hlen j Hj).
    pose proof (Nat.mod_upper_bound k (shard_count_ s) Hc) as Hm.
    destruct (decide (Z.of_nat j = Z.of_nat (k mod shard_count_ s))) as [E'|E'];
      destruct (decide (j = k mod shard_count_ s)%nat) as [E''|E'']; try lia.
    + subst j. rewrite length_app. unfold shard_len. simpl. lia.
    + unfold shard_len. lia.
Qed.

(** *** Registered replicas *)

Lemma AddReplica_registered r s :
  malformed r = true \/ replica_exist r (replicas_ s) = true ->
  AddReplica r s = s.
Proof.
  unfold AddReplica. intros [->|H]; [done|].
  rewrite H. by destruct (malformed r).
Qed.

Lemma add_replicas_registered rs : forall s,
  (forall r, r ∈ rs ->
     malformed r = true \/ replica_exist r (replicas_ s) = true) ->
  add_replicas rs s = s.
Proof.
  induction rs as [|r rs IH]; intros s Hall; [done|]. simpl.
  rewrite AddReplica_registered by (apply Hall; left).
  apply IH. intros r' Hr'. apply Hall. by right.
Qed.

Lemma replica_exist_elem_of r rs : r ∈ rs -> replica_exist r rs = true.
Proof.
  intros Hr. unfold replica_exist. apply existsb_exists.
  exists r. split; [by apply list_elem_of_In|apply Z.eqb_refl].
Qed.

Lemma replica_exist_false r rs :
  replica_exist r rs = false -> forall r', r' ∈ rs -> id r' <> id r.
Proof.
  unfold replica_exist. intros Hex r' Hr' Heq.
  assert (existsb (fun cur => id cur =? id r) rs = true); [|congruence].
  apply existsb_exists. exists r'. split; [by apply list_elem_of_In|].
  by apply Z.eqb_eq.
Qed.

Lemma malformed_false r : malformed r = false -> id r <> 0.
Proof.
  unfold malformed. destruct (Z.eqb_spec (id r) 0); [done|]. done.
Qed.

(** *** The partition *)

Lemma fresh_partitioned s : fresh s -> partitioned s.
Proof.
  intros (_ & Hl & _). unfold partitioned.
  assert (Hnil : forall t, GetNodesInShard s t = []).
  { intros t. by rewrite GetNodesInShard_default, Hl, lookup_empty. }
  split; [|split]; intros *; rewrite Hnil; [constructor|by intros ?%elem_of_nil..].
Qed.

Lemma AddReplicaToShard_partitioned r s :
  shard_count_ s <> 0%nat -> 0 <= id r <= UINT32_MAX ->
  replica_exist r (replicas_ s) = false ->
  partitioned s -> partitioned (AddReplicaToShard r s).
Proof.
  intros Hc Hid Hex (Hnd & Hrec & Hros).
  destruct (AddReplicaToShard_fields r s Hc)
    as (t & Ht & _ & Hroster & _ & Hnode & _ & Hlist & _).
  assert (Hu : u32 (id r) = id r).
  { unfold u32. apply Z.mod_small. unfold UINT32_MAX in Hid. lia. }
  rewrite Hu in *.
  assert (Hnew : forall k, id r ∉ GetNodesInShard s k).
  { intros k Hin. destruct (Hros _ _ Hin) as (r' & Hr' & Heq).
    by apply (replica_exist_false r _ Hex r' Hr'). }
  split; [|split].
  - intros k. rewrite Hlist. destruct (decide (k = Z.of_nat t)); [|done].
    apply NoDup_app. split; [done|].
    split; [|apply NoDup_singleton].
    intros x Hx ->%list_elem_of_singleton. by apply (Hnew (Z.of_nat t)).
  - intros n k. rewrite Hlist, Hnode.
    destruct (decide (k = Z.of_nat t)) as [->|Hne].
    + intros [Hin| ->%list_elem_of_singleton]%elem_of_app.
      * rewrite lookup_insert_ne; [by apply Hrec|].
        intros <-. by apply (Hnew (Z.of_nat t)).
      * by rewrite lookup_insert_eq.
    + intros Hin. rewrite lookup_insert_ne; [by apply Hrec|].
      intros <-. by apply (Hnew k).
  - intros n k. rewrite Hlist, Hroster.
    destruct (decide (k = Z.of_nat t)) as [->|Hne].
    + intros [Hin| ->%list_elem_of_singleton]%elem_of_app.
      * destruct (Hros _ _ Hin) as (r' & Hr' & Heq). exists r'.
        split; [|done]. apply elem_of_app. by left.
      * exists r. split; [|done]. apply elem_of_app. right.
        by apply list_elem_of_singleton.
    + intros Hin. destruct (Hros _ _ Hin) as (r' & Hr' & Heq). exists r'.
      split; [|done]. apply elem_of_app. by left.
Qed.

Lemma run_calls_partitioned cs : forall s,
  Forall uint32_call cs -> partitioned s -> partitioned (run_calls cs s).
Proof.
  induction cs as [|c cs IH]; intros s Hcs Hs; [done|].
  inversion Hcs as [|? ? Hc Hrest]; subst. simpl. apply IH; [done|].
  destruct c as [count|r]; simpl.
  - by apply fresh_partitioned.
  - unfold AddReplica. destruct (malformed r); [done|].
    destruct (replica_exist r (replicas_ s)) eqn:Hex; [done|].
    unfold AddReplicaToShard at 1.
    destruct (Nat.eqb_spec (shard_count_ s) 0) as [|Hne]; [done|].
    replace (mkSystemInfo _ _ _ _ _ _ _) with (AddReplicaToShard r s); last first.
    { unfold AddReplicaToShard.
      by destruct (Nat.eqb_spec (shard_count_ s) 0). }
    by apply AddReplicaToShard_partitioned.
Qed.

End TopologyRuns.

(** X1. In every state reachable by [SetShardCount] and [AddReplica] calls,
    [GetShardOfNode] answers the not-assigned value or a shard id below
    the shard count, and a shard id that is not below the count has no
    member and no primary. *)
Theorem shard_ids_below_count (s : SystemInfo) :
  reachable s ->
  (forall n, GetShardOfNode s n = UINT32_MAX
             \/ 0 <= GetShardOfNode s n < Z.of_nat (shard_count_ s))
  /\ (forall t, ~ (0 <= t < Z.of_nat (shard_count_ s)) ->
        GetShardSize s t = 0%nat /\ GetNodesInShard s t = []
        /\ GetPrimaryOfShard s t = UINT32_MAX).
Proof.
  intros Hr. destruct (reachable_within_shard_count s Hr) as (Hn & Hl & Hp).
  split.
  - intros n. unfold GetShardOfNode.
    destruct (node_to_shard_ s !! n) eqn:E; [right; by eapply Hn|by left].
  - intros t Ht. unfold GetShardSize, GetNodesInShard, GetPrimaryOfShard.
    destruct (shard_to_nodes_ s !! t) eqn:E; [by apply Hl in E|].
    destruct (shard_primaries_ s !! t) eqn:E'; [by apply Hp in E'|done].
Qed.

Lemma shard_ids_below_count_witness :
  (forall n, GetShardOfNode four_in_two n = UINT32_MAX
             \/ 0 <= GetShardOfNode four_in_two n < 2)
  /\ (forall t, ~ (0 <= t < 2) ->
        GetShardSize four_in_two t = 0%nat /\ GetNodesInShard four_in_two t = []
        /\ GetPrimaryOfShard four_in_two t = UINT32_MAX).
Proof.
  apply (shard_ids_below_count four_in_two).
  apply reachable_add_replicas. apply reachable_fresh. vm_compute. auto.
Defined.

(** X2. In every reachable state, a node that [node_to_shard_] records in a
    shard is on the [shard_to_nodes_] list of that shard. *)
Theorem node_listed_in_its_shard (s : SystemInfo) (n t : Z) :
  reachable s -> node_to_shard_ s !! n = Some t ->
  GetShardOfNode s n = t /\ n ∈ GetNodesInShard s t
  /\ GetShardSize s t <> 0%nat.
Proof.
  intros Hr Hn. pose proof (reachable_nodes_listed s Hr n t Hn) as Hin.
  split; [unfold GetShardOfNode; by rewrite Hn|]. split; [done|].
  rewrite (proj1 (shard_queries_agree s t)).
  destruct (GetNodesInShard s t); [by apply elem_of_nil in Hin|done].
Qed.

Lemma node_listed_in_its_shard_witness :
  GetShardOfNode four_in_two 4 = 1 /\ 4 ∈ GetNodesInShard four_in_two 1
  /\ GetShardSize four_in_two 1 <> 0%nat.
Proof.
  apply (node_listed_in_its_shard four_in_two 4 1).
  - apply reachable_add_replicas. apply reachable_fresh. vm_compute. auto.
  - vm_compute. reflexivity.
Defined.

(** X3. In every reachable state, the primary of a shard is the first node
    of its list (the first replica assigned to it), and a shard without a
    member has no primary. *)
Theorem primary_is_first_member (s : SystemInfo) (t : Z) :
  reachable s ->
  shard_primaries_ s !! t = head (GetNodesInShard s t)
  /\ GetPrimaryOfShard s t = default UINT32_MAX (head (GetNodesInShard s t)).
Proof.
  intros Hr. pose proof (reachable_primary_first s Hr t) as Hp.
  split; [done|]. unfold GetPrimaryOfShard. rewrite Hp.
  by destruct (head _).
Qed.

Lemma primary_is_first_member_witness :
  shard_primaries_ four_in_two !! 1 = head (GetNodesInShard four_in_two 1)
  /\ GetPrimaryOfShard four_in_two 1
     = default UINT32_MAX (head (GetNodesInShard four_in_two 1)).
Proof.
  apply (primary_is_first_member four_in_two 1).
  apply reachable_add_replicas. apply reachable_fresh. vm_compute. auto.
Defined.

(** X4. [AddReplica] deals the replicas out in turn: after [k] successful
    calls from the empty assignment over [count >= 1] shards (a roster being a
    vector, [k] below [SIZE_MAX]), shard [i] has [k / count] members, one more
    when [i < k mod count], and the next successful call assigns its
    replica to shard [k mod count]. *)
Theorem replicas_dealt_in_turn (count k : nat) (s0 : SystemInfo)
    (rs : list ReplicaInfo) (r : ReplicaInfo) (i : nat) :
  (1 <= count)%nat -> empty_assignment count s0 ->
  length rs = k -> all_succeed (rs ++ [r]) s0 = true ->
  Z.of_nat k + 1 < SIZE_MAX -> (i < count)%nat ->
  GetShardSize (add_replicas rs s0) (Z.of_nat i) = dealt count k i
  /\ GetShardOfNode (add_replicas (rs ++ [r]) s0) (u32 (id r))
     = Z.of_nat (k mod count).
Proof.
  intros Hc [Hcount (_ & Hn & _)] Hk Hok Hlt Hi. subst k.
  assert (Hok' : all_succeed rs s0 = true
                 /\ AddReplica_succeeds r (add_replicas rs s0) = true).
  { clear -Hok. revert s0 Hok. induction rs as [|x rs IH]; intros s0; simpl.
    - rewrite andb_true_r. done.
    - intros [Hx Hrest]%andb_prop. rewrite Hx. simpl. by apply IH. }
  destruct Hok' as [Hrs Hr].
  assert (Hc0 : shard_count_ s0 <> 0%nat) by lia.
  assert (Hdealt : forall j, (j < shard_count_ s0)%nat ->
    shard_len (shard_to_nodes_ (add_replicas rs s0)) (Z.of_nat j)
    = dealt (shard_count_ s0) (length rs) j).
  { intros j Hj.
    apply (add_replicas_dealt rs s0 0 Hc0); simpl; try done; [lia|].
    intros x Hx. unfold shard_len, dealt. rewrite Hn, lookup_empty. simpl.
    rewrite Nat.Div0.div_0_l, Nat.Div0.mod_0_l. done. }
  rewrite Hcount in *. split.
  - rewrite GetShardSize_len. by apply Hdealt.
  - unfold add_replicas. rewrite fold_left_app. simpl.
    fold (add_replicas rs s0).
    destruct (add_replicas_balanced rs s0 0) as [Hsc _]; [simpl; lia| |].
    { split; intros x **; unfold shard_len; rewrite Hn, lookup_empty;
        simpl; lia. }
    destruct (AddReplica_cases r (add_replicas rs s0))
      as [[Hf _]|(_ & Hne & ->)]; [congruence|].
    destruct (AddReplicaToShard_fields r _ Hne)
      as (t & _ & Htt & _ & _ & Hnode & _).
    unfold GetShardOfNode. rewrite Hnode, lookup_insert_eq, <- Htt.
    rewrite Hsc, Hcount.
    apply (dealt_target _ _ (length rs)); [lia|lia|].
    intros j Hj. apply Hdealt. lia.
Qed.

Lemma replicas_dealt_in_turn_witness :
  GetShardSize (add_replicas [replica_n 1; replica_n 2; replica_n 3] (blank 2)) 0
  = dealt 2 3 0
  /\ GetShardOfNode four_in_two 4 = 1.
Proof.
  apply (replicas_dealt_in_turn 2 3 (blank 2)
           [replica_n 1; replica_n 2; replica_n 3] (replica_n 4) 0).
  - lia.
  - vm_compute. auto.
  - reflexivity.
  - vm_compute. reflexivity.
  - vm_compute. reflexivity.
  - lia.
Defined.

(** X5. [AddReplica] never assigns a replica that is on the roster already:
    adding any list of registered (or malformed) replicas changes nothing.
    So a roster installed by [SetReplicas], with or without a
    [SetShardCount] after it, is not assigned to shards by adding it
    again. *)
Theorem registered_replicas_not_assigned (rs : list ReplicaInfo)
    (count : nat) (s : SystemInfo) :
  (forall added, (forall r, r ∈ added ->
       malformed r = true \/ replica_exist r (replicas_ s) = true) ->
     add_replicas added s = s)
  /\ add_replicas rs (SetReplicas rs s) = SetReplicas rs s
  /\ add_replicas rs (SetShardCount count (SetReplicas rs s))
     = SetShardCount count (SetReplicas rs s)
  /\ add_replicas (replicas_ s) (SetShardCount count s) = SetShardCount count s.
Proof.
  split; [intros added Hadded; by apply add_replicas_registered|].
  repeat split; apply add_replicas_registered; intros r Hr; right;
    by apply replica_exist_elem_of.
Qed.

Lemma registered_replicas_not_assigned_witness :
  add_replicas [replica_n 1; replica_n 3] four_in_two = four_in_two
  /\ GetShardOfNode
       (add_replicas (replicas_ four_in_two) (SetShardCount 2 four_in_two)) 1
     = UINT32_MAX.
Proof.
  destruct (registered_replicas_not_assigned [] 2 four_in_two)
    as (Hreg & _ & _ & Hreset).
  split.
  - apply Hreg. intros r Hr. right.
    apply elem_of_cons in Hr as [->|Hr]; [vm_compute; reflexivity|].
    apply elem_of_cons in Hr as [->|Hr]; [vm_compute; reflexivity|].
    by apply elem_of_nil in Hr.
  - rewrite Hreset. vm_compute. reflexivity.
Defined.

(** X6. No sequence of [SetShardCount] and [AddReplica] calls removes or
    reorders a registered replica: the roster grows at its end only, by
    well-formed replicas, and ids that were distinct stay distinct. *)
Theorem roster_only_grows (cs : list call) (s : SystemInfo) :
  exists added,
    replicas_ (run_calls cs s) = replicas_ s ++ added
    /\ Forall (fun r => malformed r = false) added
    /\ (NoDup (map id (replicas_ s)) ->
        NoDup (map id (replicas_ (run_calls cs s)))).
Proof.
  induction cs as [|c cs IH] using rev_ind.
  - exists []. by rewrite app_nil_r.
  - destruct IH as (added & Hros & Hwf & Hnd). rewrite run_calls_snoc.
    destruct c as [count|r]; simpl; [by exists added|].
    unfold AddReplica. destruct (malformed r) eqn:Hm; [by exists added|].
    destruct (replica_exist r (replicas_ (run_calls cs s))) eqn:Hex;
      [by exists added|].
    unfold AddReplicaToShard.
    destruct (Nat.eqb_spec (shard_count_ (run_calls cs s)) 0);
      [by exists added|].
    simpl. exists (added ++ [r]). rewrite Hros, app_assoc.
    split; [done|]. split; [apply Forall_app; split; [done|by constructor]|].
    intros Hs. specialize (Hnd Hs). rewrite Hros in Hnd.
    rewrite map_app. apply NoDup_app. split; [done|].
    split; [|apply NoDup_singleton].
    intros x Hx ->%list_elem_of_singleton.
    apply list_elem_of_fmap in Hx as (r' & Heq & Hr').
    rewrite <- Hros in Hr'.
    by apply (replica_exist_false r _ Hex r' Hr').
Qed.

(** X7. When the ids fit [uint32_t], the shards partition the assigned
    nodes: from a freshly constructed [SystemInfo], after any sequence of
    [SetShardCount] and [AddReplica] calls, no shard list has a duplicate, a
    node is on the list of shard [t] exactly when [node_to_shard_] records it
    in [t], and so no node is on the lists of two shards. *)
Theorem shards_partition_nodes (cs : list call) (s0 : SystemInfo) :
  fresh s0 -> Forall uint32_call cs ->
  let s := run_calls cs s0 in
  (forall t, NoDup (GetNodesInShard s t))
  /\ (forall n t, n ∈ GetNodesInShard s t <-> node_to_shard_ s !! n = Some t)
  /\ (forall n t1 t2, n ∈ GetNodesInShard s t1 -> n ∈ GetNodesInShard s t2 ->
        t1 = t2).
Proof.
  intros Hf Hcs s.
  destruct (run_calls_partitioned cs s0 Hcs (fresh_partitioned s0 Hf))
    as (Hnd & Hrec & _).
  assert (Hr : reachable s)
    by (apply reachable_run_calls; by apply reachable_fresh).
  split; [done|]. split.
  - intros n t. split; [apply Hrec|apply (reachable_nodes_listed s Hr)].
  - intros n t1 t2 H1 H2. apply Hrec in H1, H2. congruence.
Qed.

Lemma shards_partition_nodes_witness :
  (forall t, NoDup (GetNodesInShard four_in_two t))
  /\ (forall n t, n ∈ GetNodesInShard four_in_two t
                  <-> node_to_shard_ four_in_two !! n = Some t)
  /\ (forall n t1 t2, n ∈ GetNodesInShard four_in_two t1 ->
        n ∈ GetNodesInShard four_in_two t2 -> t1 = t2).
Proof.
  apply (shards_partition_nodes
           [CallAddReplica (replica_n 1); CallAddReplica (replica_n 2);
            CallAddReplica (replica_n 3); CallAddReplica (replica_n 4)]
           (blank 2)).
  - vm_compute. auto.
  - repeat constructor; vm_compute; discriminate.
Defined.

(** ** Further properties of the replicator *)

Section ReplicatorRuns.

Context {MM : Type} {store_ops : MessageStore MM}.

Implicit Types (cfg : Config) (s : State MM) (d : DuplicateManager).

Lemma send_to_shard_primaries_run (info : SystemInfo) (message : Request) s :
  send_to_shard_primaries info message s
  = Some (tt, s,
          map (fun i => SendMessage message (GetPrimaryOfShard info (Z.of_nat i)))
              (seq 0 (GetShardCount info))).
Proof.
  unfold send_to_shard_primaries.
  induction (seq 0 (GetShardCount info)) as [|i l IH]; [done|].
  cbn [fold_right map]. unfold bind at 1. unfold emit at 1. by rewrite IH.
Qed.

(** A loop over the whole vector with a guarded send visits the elements
    that pass the guard, in order. *)
Lemma for_index_guarded (p : Z -> bool) (f : Z -> Event) (rest : list Z) :
  forall (i : Z) s,
  for_index (fun node => if p node then emit (f node) else ret tt)
    i (i + Z.of_nat (length rest)) rest s
  = Some (tt, s, map f (filter (fun node => p node = true) rest)).
Proof.
  induction rest as [|node rest IH]; intros i s; cbn [for_index].
  - replace (i <? i + Z.of_nat (length (@nil Z))) with false; [done|].
    symmetry. apply Z.ltb_ge. simpl. lia.
  - replace (i <? i + Z.of_nat (length (node :: rest))) with true
      by (symmetry; apply Z.ltb_lt; simpl; lia).
    replace (i + Z.of_nat (length (node :: rest)))
      with ((i + 1) + Z.of_nat (length rest)) by (simpl; lia).
    unfold bind. rewrite filter_cons.
    destruct (p node) eqn:Hp; unfold emit, ret.
    + rewrite IH. by rewrite decide_True.
    + rewrite IH. by rewrite decide_False.
Qed.

Lemma CheckAndAddProposed_cases hash d :
  ((hash ∈ proposed d) /\ CheckAndAddProposed hash d = (true, d))
  \/ ((hash ∉ proposed d)
      /\ CheckAndAddProposed hash d
         = (false, {| proposed := {[hash]} ∪ proposed d;
                      executed := executed d |})).
Proof.
  unfold CheckAndAddProposed. destruct (decide (hash ∈ proposed d)); auto.
Qed.

End ReplicatorRuns.

Section ReplicatorExtras.

Context {MM : Type} {store_ops : MessageStore MM}.

(** X8. When [ProcessNewRequest] gets a sequence number (the request is
    signed, not executed and not proposed, this replica is the coordinator of
    its shard, both verifications pass and [AssignNextSeq] succeeds), it
    returns 0 and sends the request once per shard id below the shard count,
    the i-th to the primary of shard i, as a [TYPE_PRE_PREPARE] of the
    current view with the assigned [seq] and this replica as sender and
    primary; the hash stays marked proposed. *)
Theorem new_request_sequenced (cfg : Config) (context : option Context)
    (user_request : Request) (s : State MM) (v : SignatureVerifier)
    (seq : Z) (st' : MM) :
  unsigned context = false ->
  CheckIfExecuted (Request.hash user_request) (duplicate_manager_ s) = 0 ->
  self_id cfg = GetPrimaryOfNode (info s) (self_id cfg) ->
  verifier_ cfg = Some v ->
  VerifyMessage v (Request.data user_request)
    (Request.data_signature user_request) = true ->
  pre_verify_fails cfg user_request = false ->
  Request.hash user_request ∉ proposed (duplicate_manager_ s) ->
  AssignNextSeq (store s) = (Some seq, st') ->
  exists pre_prepare s',
    ProcessNewRequest cfg context user_request s
    = Some (0, s',
            [Stat "IncClientRequest";
             CallCheckAndAddProposed (Request.hash user_request);
             CallAssignNextSeq;
             Stat "RecordStateTime(request)"]
            ++ map (fun i => SendMessage pre_prepare
                               (GetPrimaryOfShard (info s) (Z.of_nat i)))
                   (List.seq 0 (GetShardCount (info s))))
    /\ store s' = st'
    /\ proposed (duplicate_manager_ s')
       = {[Request.hash user_request]} ∪ proposed (duplicate_manager_ s)
    /\ Request.type pre_prepare = TYPE_PRE_PREPARE
    /\ Request.seq pre_prepare = seq
    /\ Request.current_view pre_prepare = GetCurrentView (info s)
    /\ Request.sender_id pre_prepare = self_id cfg
    /\ Request.primary_id pre_prepare = self_id cfg
    /\ Request.hash pre_prepare = Request.hash user_request
    /\ Request.data pre_prepare = Request.data user_request
    /\ Request.proxy_id pre_prepare = Request.proxy_id user_request.
Proof.
  intros Hc Hex Hp Hv Hvalid Hpre Hprop Hseq.
  destruct (CheckAndAddProposed_cases (Request.hash user_request)
              (duplicate_manager_ s)) as [[? _]|[_ Hadd]]; [done|].
  eexists (Request.set_primary_id (self_id cfg)
            (Request.set_sender_id (self_id cfg)
              (Request.set_seq seq
                (Request.set_current_view (GetCurrentView (info s))
                  (Request.set_type TYPE_PRE_PREPARE user_request))))).
  eexists. split.
  - unfold ProcessNewRequest, verify_message, check_and_add_proposed,
      assign_next_seq, stat.
    unfold_monad. rewrite Hc, Hex. simpl.
    destruct (Z.eqb_spec (self_id cfg)
                (GetPrimaryOfNode (info s) (self_id cfg))); [|done].
    simpl. rewrite Hv, Hvalid. simpl. rewrite Hpre, Hadd. simpl.
    rewrite Hseq. simpl. rewrite send_to_shard_primaries_run. simpl.
    by rewrite app_nil_r.
  - by repeat split.
Qed.

(** A signed request that was not executed, received by a replica that is
    not the coordinator of its shard, is sent unchanged to that coordinator
    and put at the end of [request_complained_]; the call returns -3. *)
Lemma new_request_forwarded (cfg : Config) (context : option Context)
    (user_request : Request) (s : State MM) :
  unsigned context = false ->
  CheckIfExecuted (Request.hash user_request) (duplicate_manager_ s) = 0 ->
  self_id cfg <> GetPrimaryOfNode (info s) (self_id cfg) ->
  ProcessNewRequest cfg context user_request s
  = Some (-3,
          mkState (info s) (store s) (duplicate_manager_ s)
                  (request_complained_ s ++ [(context, user_request)]),
          [SendMessage user_request (GetPrimaryOfNode (info s) (self_id cfg))]).
Proof.
  intros Hc Hex Hp. unfold ProcessNewRequest. unfold_monad.
  rewrite Hc, Hex. simpl.
  by destruct (Z.eqb_spec (self_id cfg) (GetPrimaryOfNode (info s) (self_id cfg))).
Qed.

(** X9. The return code of [ProcessNewRequest] tells what it did.  It is
    0, -2 or -3.  It is -3 exactly when the request was put on
    [request_complained_], which otherwise stays as it is; then the only
    event is the request sent on, unchanged, to the coordinator of the shard,
    and the message manager was not called.  It is 0 exactly when the hash,
    not marked before, ends up marked proposed; with -2 or -3 the proposed
    marks end up as they were. *)
Theorem new_request_return_code (cfg : Config) (context : option Context)
    (user_request : Request) (s s' : State MM) (code : Z)
    (events : list Event) :
  ProcessNewRequest cfg context user_request s = Some (code, s', events) ->
  (code = 0 \/ code = -2 \/ code = -3)
  /\ request_complained_ s'
     = request_complained_ s
       ++ (if code =? -3 then [(context, user_request)] else [])
  /\ proposed (duplicate_manager_ s')
     = (if code =? 0
        then {[Request.hash user_request]} ∪ proposed (duplicate_manager_ s)
        else proposed (duplicate_manager_ s))
  /\ (code = 0 ->
      Request.hash user_request ∉ proposed (duplicate_manager_ s))
  /\ (code = -3 ->
      events = [SendMessage user_request
                  (GetPrimaryOfNode (info s) (self_id cfg))]
      /\ store s' = store s).
Proof.
  unfold ProcessNewRequest, verify_message, check_and_add_proposed,
    assign_next_seq, erase_proposed, stat.
  unfold_monad.
  destruct (unsigned context); [read_code|].
  destruct (negb (CheckIfExecuted (Request.hash user_request)
                    (duplicate_manager_ s) =? 0)); [read_code|].
  simpl.
  destruct (negb (self_id cfg =? GetPrimaryOfNode (info s) (self_id cfg)));
    simpl; [read_code|].
  destruct (verifier_ cfg) as [v|]; [|done]. simpl.
  destruct (negb (VerifyMessage v (Request.data user_request)
                    (Request.data_signature user_request))); simpl;
    [read_code|].
  destruct (pre_verify_fails cfg user_request); [read_code|].
  simpl.
  destruct (CheckAndAddProposed_cases (Request.hash user_request)
              (duplicate_manager_ s)) as [[Hin ->]|[Hnin Hadd]]; simpl;
    [read_code|].
  rewrite Hadd. simpl.
  destruct (AssignNextSeq (store s)) as [[seq|] st'] eqn:Hseq; simpl.
  - rewrite send_to_shard_primaries_run. simpl. read_code.
  - intros [= <- <- <-]. simpl. rewrite app_nil_r.
    split; [lia|]. split; [done|]. split; [|split; lia].
    apply set_eq. intros x. rewrite elem_of_difference, elem_of_union,
      !elem_of_singleton. split; [tauto|]. intros Hx. split; [tauto|].
    by intros ->.
Qed.

(** X10. The consensus entry points send nothing unless a phase boundary
    is crossed: when the message is not retransmitted and is a recovery
    message, or [AddConsensusMsg] does not answer [STATE_CHANGED] for it,
    no message leaves the replica, whatever the return code. *)
Theorem no_send_without_state_change (cfg : Config) (context : option Context)
    (request : Request) (s s' : State MM) (code : Z) (events : list Event) :
  misrouted cfg (info s) request = false ->
  (Request.is_recovery request = true
   \/ forall c, context = Some c ->
        fst (AddConsensusMsg (context_signature c) request (store s))
        <> STATE_CHANGED) ->
  (ProcessProposeMsg cfg context request s = Some (code, s', events)
   \/ ProcessPrepareMsg cfg context request s = Some (code, s', events)
   \/ ProcessCommitMsg cfg context request s = Some (code, s', events)) ->
  filter (fun e => is_send e = true) events = [].
Proof.
  intros Hm Hquiet.
  unfold ProcessProposeMsg, ProcessPrepareMsg, ProcessCommitMsg, propose,
    verify_message, check_and_add_proposed, add_consensus_msg, set_next_seq,
    unsigned, stat.
  unfold_monad. rewrite Hm.
  destruct context as [[sig]|]; simpl;
    [|destruct (IsFaulty cfg); intros [[= <- <- <-]|[[= <- <- <-]|[= <- <- <-]]];
      done].
  destruct (String.eqb (signature sig) EmptyString); simpl;
    [destruct (IsFaulty cfg); intros [[= <- <- <-]|[[= <- <- <-]|[= <- <- <-]]];
     done|].
  destruct (Request.is_recovery request) eqn:Hrec.
  - destruct (IsFaulty cfg); simpl;
      [intros [[= <- <- <-]|[[= <- <- <-]|[= <- <- <-]]]; done|].
    destruct (_ || _); simpl;
      intros [[= <- <- <-]|[[= <- <- <-]|[= <- <- <-]]]; done.
  - destruct Hquiet as [?|Hquiet]; [done|].
    specialize (Hquiet _ eq_refl). simpl in Hquiet.
    destruct (AddConsensusMsg sig request (store s)) as [r st1] eqn:Hadd.
    simpl in Hquiet.
    intros [Hrun|[Hrun|Hrun]]; revert Hrun.
    + destruct (IsFaulty cfg); simpl; [by intros [= <- <- <-]|].
      destruct (_ && _); simpl; [by intros [= <- <- <-]|].
      destruct (negb (Request.sender_id request =? self_id cfg)); simpl.
      * destruct (pre_verify_fails cfg request); [by intros [= <- <- <-]|].
        destruct (verifier_ cfg) as [v|]; [|done]. simpl.
        destruct (negb (VerifyMessage v _ _)); simpl;
          [by intros [= <- <- <-]|].
        destruct (CheckAndAddProposed_cases (Request.hash request)
                    (duplicate_manager_ s)) as [[_ ->]|[_ ->]]; simpl;
          [by intros [= <- <- <-]|].
        rewrite Hadd. simpl. destruct r; simpl; try done;
          by intros [= <- <- <-].
      * rewrite Hadd. simpl. destruct r; simpl; try done;
          by intros [= <- <- <-].
    + simpl. destruct r; simpl; try done; by intros [= <- <- <-].
    + simpl. destruct r; simpl; try done; by intros [= <- <- <-].
Qed.

(** X11. A message without a signature is rejected before anything else is
    looked at: [ProcessNewRequest], and the three consensus entry points for
    a message they do not retransmit, return -2, send nothing, call neither
    the message manager nor the duplicate guard and leave the state as it
    is.  The faulty switch makes [ProcessProposeMsg] do the same to signed
    messages. *)
Theorem unsigned_rejected (cfg : Config) (context : option Context)
    (request : Request) (s : State MM) :
  (unsigned context = true ->
   ProcessNewRequest cfg context request s = Some (-2, s, []))
  /\ (misrouted cfg (info s) request = false ->
      (unsigned context = true ->
       ProcessProposeMsg cfg context request s = Some (-2, s, [])
       /\ ProcessPrepareMsg cfg context request s = Some (-2, s, [])
       /\ ProcessCommitMsg cfg context request s = Some (-2, s, []))
      /\ (IsFaulty cfg = true ->
          ProcessProposeMsg cfg context request s = Some (-2, s, []))).
Proof.
  unfold ProcessNewRequest, ProcessProposeMsg, ProcessPrepareMsg,
    ProcessCommitMsg.
  unfold_monad. split; [by intros ->|].
  intros ->. split; [intros ->; by rewrite orb_true_r|by intros ->].
Qed.


(** X13. A PRE_PREPARE that is not a recovery message and whose sender is
    neither the global primary nor the coordinator of the receiver's shard
    never reaches the message manager or the duplicate guard, signed or not
    and whatever the faulty switch says.  When the ingress test fires (the
    sender is outside the shard and the receiver is not its coordinator),
    [ProcessProposeMsg] sends the message on to the coordinator and returns
    -3; otherwise it returns -2 and sends nothing.  The state is left as it
    is in both cases. *)
Theorem stranger_proposal_never_recorded (cfg : Config)
    (context : option Context) (request : Request) (s : State MM) :
  Request.is_recovery request = false ->
  Request.sender_id request <> GetCurrentPrimary (info s) ->
  Request.sender_id request <> GetPrimaryOfNode (info s) (self_id cfg) ->
  ProcessProposeMsg cfg context request s
  = if misrouted cfg (info s) request
    then Some (-3, s,
               [SendMessage request
                  (GetPrimaryOfShard (info s)
                     (GetShardOfNode (info s) (self_id cfg)))])
    else Some (-2, s, []).
Proof.
  intros Hrec Hp Hcoord.
  unfold ProcessProposeMsg, retransmit. unfold_monad.
  destruct (misrouted cfg (info s) request); [done|].
  destruct (IsFaulty cfg); [done|]. simpl.
  destruct context as [c|]; [|done]. simpl.
  destruct (String.eqb (signature (context_signature c)) EmptyString); [done|].
  rewrite Hrec.
  destruct (Z.eqb_spec (Request.sender_id request) (GetCurrentPrimary (info s)));
    [done|].
  by destruct (Z.eqb_spec (Request.sender_id request)
                 (GetPrimaryOfNode (info s) (self_id cfg))).
Qed.

(** X14. A signed recovery message that passes the ingress test (it is not
    retransmitted) is recorded and nothing else.  With the faulty switch off,
    a recovery PRE_PREPARE is admitted when the next sequence number is 0 or
    equals its [seq]: the next sequence number is set to [seq + 1] (in
    [uint64_t]), then the message is handed to [AddConsensusMsg], whose
    result code is returned as it is; otherwise the call returns 0 and does
    nothing.  A recovery PREPARE or COMMIT is handed to [AddConsensusMsg] and
    its code returned, with no message sent whatever the answer. *)
Theorem recovery_messages_recorded (cfg : Config) (sig : SignatureInfo)
    (request : Request) (s : State MM) :
  misrouted cfg (info s) request = false ->
  signature sig <> EmptyString ->
  Request.is_recovery request = true ->
  let context := Some {| context_signature := sig |} in
  (IsFaulty cfg = false ->
   if (GetNextSeq (store s) =? 0)
      || (Request.seq request =? GetNextSeq (store s))
   then
     let st1 := SetNextSeq (u64 (Request.seq request + 1)) (store s) in
     exists s',
       ProcessProposeMsg cfg context request s
       = Some (code_value (fst (AddConsensusMsg sig request st1)), s',
               [CallSetNextSeq (u64 (Request.seq request + 1));
                CallAddConsensusMsg sig request])
       /\ store s' = snd (AddConsensusMsg sig request st1)
   else ProcessProposeMsg cfg context request s = Some (0, s, []))
  /\ (exists s',
        ProcessPrepareMsg cfg context request s
        = Some (code_value (fst (AddConsensusMsg sig request (store s))), s',
                [CallAddConsensusMsg sig request])
        /\ store s' = snd (AddConsensusMsg sig request (store s)))
  /\ (exists s',
        ProcessCommitMsg cfg context request s
        = Some (code_value (fst (AddConsensusMsg sig request (store s))), s',
                [CallAddConsensusMsg sig request])
        /\ store s' = snd (AddConsensusMsg sig request (store s))).
Proof.
  intros Hm Hsig Hrec context. subst context.
  unfold ProcessProposeMsg, ProcessPrepareMsg, ProcessCommitMsg,
    add_consensus_msg, set_next_seq, unsigned.
  unfold_monad. rewrite Hm, Hrec. simpl.
  destruct (String.eqb_spec (signature sig) EmptyString); [done|].
  split; [|split; eexists; split; reflexivity].
  intros ->. simpl.
  destruct ((GetNextSeq (store s) =? 0)
            || (Request.seq request =? GetNextSeq (store s))); [|done].
  simpl. eexists. split; reflexivity.
Qed.

(** X15. What becomes of a COMMIT.  A signed COMMIT that is neither
    retransmitted nor a recovery message is handed to [AddConsensusMsg]
    first.  When the answer is not [STATE_CHANGED], [ProcessCommitMsg]
    returns -2 for [INVALID] and 0 otherwise, with no other call and no
    message sent.  When the answer is [STATE_CHANGED], the sequence number is
    read through the request that was moved into that call, and the run is
    undefined before the phase of the slot is known: [ProcessCommitMsg]
    never records the commit time and returns, nor sends the PRE_PREPARE and
    PREPARE of the local round and returns. *)
Theorem commit_outcome (cfg : Config) (sig : SignatureInfo)
    (request : Request) (s : State MM) :
  misrouted cfg (info s) request = false ->
  signature sig <> EmptyString ->
  Request.is_recovery request = false ->
  let context := Some {| context_signature := sig |} in
  match fst (AddConsensusMsg sig request (store s)) with
  | STATE_CHANGED => ProcessCommitMsg cfg context request s = None
  | r =>
      exists s',
        ProcessCommitMsg cfg context request s
        = Some (result_code r, s', [CallAddConsensusMsg sig request])
        /\ store s' = snd (AddConsensusMsg sig request (store s))
  end.
Proof.
  intros Hm Hsig Hrec context. subst context.
  destruct (AddConsensusMsg sig request (store s)) as [r st1] eqn:Hadd.
  cbn [fst snd].
  unfold ProcessCommitMsg, add_consensus_msg, unsigned, stat, moved_from, deref.
  unfold_monad. rewrite Hm. simpl.
  destruct (String.eqb_spec (signature sig) EmptyString); [done|].
  rewrite Hrec, Hadd.
  destruct r; simpl; try reflexivity; eexists; split; reflexivity.
Qed.

(** X16. The response thread answers a proxy only for batches whose
    primary is in the shard of this replica: for the batches polled, in
    order, it sends one [TYPE_RESPONSE] with the [seq], hash, view and
    primary of the batch to the [proxy_id] of the batch when
    [NodesInSameShard(primary_id, self)] holds, and nothing otherwise (nor for
    a null poll); it returns 0 and calls neither the message manager's
    consensus operations nor the duplicate guard. *)
Theorem responses_from_primary_shard_only (cfg : Config)
    (polled : list (option BatchUserResponse)) (s : State MM) :
  exists events,
    PostProcessExecutedMsg cfg polled s = Some (0, s, events)
    /\ filter (fun e => is_send e = true) events
       = map (fun b => SendMessage (batch_response cfg b) (batch_proxy_id b))
           (filter (fun b => NodesInSameShard (info s) (batch_primary_id b)
                               (self_id cfg) = true)
              (omap (fun p => p) polled))
    /\ filter (fun e => is_send e = false) events
       = map (fun _ => Stat "SendSummary") (omap (fun p => p) polled).
Proof.
  induction polled as [|[b|] polled (events & Hrun & Hsend & Hstat)].
  - by exists [].
  - cbn [PostProcessExecutedMsg post_process]. unfold stat. unfold_monad.
    change (omap (fun p => p) (Some b :: polled))
      with (b :: omap (fun p : option BatchUserResponse => p) polled).
    rewrite (filter_cons _ b), !fmap_cons.
    destruct (NodesInSameShard (info s) (batch_primary_id b) (self_id cfg))
      eqn:Hsame; rewrite Hrun; eexists; (split; [reflexivity|]).
    + rewrite decide_True by done. cbn [app].
      rewrite !filter_cons. cbn [is_send].
      rewrite (decide_False (P := false = true)) by done.
      rewrite (decide_True (P := true = true)) by done.
      rewrite (decide_True (P := false = false)) by done.
      rewrite (decide_False (P := true = false)) by done.
      rewrite Hsend, Hstat. done.
    + rewrite decide_False by done. cbn [app].
      rewrite !filter_cons. cbn [is_send].
      rewrite (decide_False (P := false = true)) by done.
      rewrite (decide_True (P := false = false)) by done.
      rewrite Hsend, Hstat. done.
  - cbn [PostProcessExecutedMsg post_process]. unfold_monad.
    rewrite Hrun. by exists events.
Qed.

End ReplicatorExtras.

Section PrepareExtras.

Context {MM : Type} {store_ops : MessageStore MM}.

(** X17. The inner level of [ProcessPrepareMsg]: when a signed PREPARE that
    is neither retransmitted nor a recovery message makes [AddConsensusMsg]
    answer [STATE_CHANGED], the commit is signed where asked for, and the
    slot is not at [READY_COMMIT], the COMMIT (the message retyped, sent by
    this replica) goes once to every member of the shard of this replica, in
    list order, this replica included; the highest prepared sequence number
    is raised to the [seq] of the message when it was lower, and the call
    returns 0. *)
Theorem inner_commit_to_every_member (cfg : Config) (sig : SignatureInfo)
    (request : Request) (s : State MM) (st1 : MM) (commit : Request) :
  misrouted cfg (info s) request = false ->
  signature sig <> EmptyString ->
  Request.is_recovery request = false ->
  AddConsensusMsg sig request (store s) = (STATE_CHANGED, st1) ->
  sign_commit cfg (Request.set_data_signature SignatureInfo_clear
                     (NewRequest TYPE_COMMIT request (self_id cfg)))
  = Some commit ->
  let raise := GetHighestPreparedSeq st1 <? Request.seq request in
  let st2 := if raise then SetHighestPreparedSeq (Request.seq request) st1
             else st1 in
  GetTransactionState (Request.seq request) st2 <> READY_COMMIT ->
  exists s',
    ProcessPrepareMsg cfg (Some {| context_signature := sig |}) request s
    = Some (0, s',
            CallAddConsensusMsg sig request
            :: (if raise then [CallSetHighestPreparedSeq (Request.seq request)]
                else [])
            ++ map (SendMessage commit)
                 (GetNodesInShard (info s)
                    (GetShardOfNode (info s) (self_id cfg))))
    /\ store s' = st2
    /\ Request.type commit = TYPE_COMMIT
    /\ Request.sender_id commit = self_id cfg
    /\ Request.seq commit = Request.seq request
    /\ Request.hash commit = Request.hash request.
Proof.
  intros Hm Hsig Hrec Hadd Hsign raise st2 Hphase.
  pose proof (ProcessPrepareMsg_state_changed cfg _ request s sig st1 commit
                Hm eq_refl Hsig Hrec Hadd Hsign) as Hrun.
  simpl in Hrun. fold raise in Hrun. fold st2 in Hrun.
  exists (mkState (info s) st2 (duplicate_manager_ s) (request_complained_ s)).
  split; [|split; [reflexivity|]].
  - rewrite Hrun. destruct (GetTransactionState (Request.seq request) st2);
      done.
  - unfold sign_commit in Hsign.
    destruct (need_qc_ cfg); [destruct (verifier_ cfg) as [v|];
      [destruct (SignMessage v _); [|done]|]|];
      injection Hsign as <-; done.
Qed.

(** X18. When the commit cannot be signed ([need_qc_] is set, there is a
    verifier and [SignMessage] fails), [ProcessPrepareMsg] returns -2 and
    sends no COMMIT, although the PREPARE has been recorded by
    [AddConsensusMsg] with [STATE_CHANGED] and the highest prepared sequence
    number has been raised. *)
Theorem commit_not_signed_not_sent (cfg : Config) (sig : SignatureInfo)
    (request : Request) (s : State MM) (st1 : MM) (v : SignatureVerifier) :
  misrouted cfg (info s) request = false ->
  signature sig <> EmptyString ->
  Request.is_recovery request = false ->
  AddConsensusMsg sig request (store s) = (STATE_CHANGED, st1) ->
  need_qc_ cfg = true -> verifier_ cfg = Some v ->
  SignMessage v (Request.hash request) = None ->
  let raise := GetHighestPreparedSeq st1 <? Request.seq request in
  exists s',
    ProcessPrepareMsg cfg (Some {| context_signature := sig |}) request s
    = Some (-2, s',
            CallAddConsensusMsg sig request
            :: (if raise then [CallSetHighestPreparedSeq (Request.seq request)]
                else []))
    /\ store s' = (if raise
                   then SetHighestPreparedSeq (Request.seq request) st1
                   else st1).
Proof.
  intros Hm Hsig Hrec Hadd Hqc Hv Hfail raise.
  exists (mkState (info s)
            (if raise then SetHighestPreparedSeq (Request.seq request) st1
             else st1)
            (duplicate_manager_ s) (request_complained_ s)).
  split; [|done].
  unfold ProcessPrepareMsg, add_consensus_msg, set_highest_prepared_seq,
    sign_commit, unsigned.
  unfold_monad. rewrite Hm. simpl.
  destruct (String.eqb_spec (signature sig) EmptyString); [done|].
  rewrite Hrec, Hadd, Hqc, Hv. simpl. rewrite Hfail. fold raise.
  by destruct raise.
Qed.

End PrepareExtras.

(** ** Properties of the replica communicator *)

Section CommunicatorFacts.

Import Communicator.

Variable net : Network.

Implicit Types (c : ReplicaCommunicator) (message : Payload).

Lemma SendMessageInternal_loop_run message replicas : forall c ret sent,
  SendMessageInternal_loop net message replicas c ret sent
  = mkOutcome
      (ret + Z.of_nat (length (filter (fun r => net (ip r) (port r) = true)
                                      replicas)))
      c
      (sent ++ map (fun r => mkAttempt (ip r) (port r) message) replicas)
      false.
Proof.
  induction replicas as [|r rest IH]; intros c ret sent; simpl.
  - by rewrite Z.add_0_r, app_nil_r.
  - rewrite IH, filter_cons, <- app_assoc. simpl.
    destruct (net (ip r) (port r)).
    + rewrite decide_True by done. simpl. f_equal. lia.
    + by rewrite decide_False.
Qed.

Lemma SendMessageInternal_run c message replicas :
  SendMessageInternal net c message replicas
  = mkOutcome
      (Z.of_nat (length (filter (fun r => net (ip r) (port r) = true) replicas)))
      c (map (fun r => mkAttempt (ip r) (port r) message) replicas) false.
Proof. unfold SendMessageInternal. by rewrite SendMessageInternal_loop_run. Qed.

Lemma SendMessageFromPool_loop_bounds message replicas : forall c ret sent,
  let o := SendMessageFromPool_loop net message replicas c ret sent in
  ret <= ret_value o <= ret + Z.of_nat (length replicas)
  /\ length (attempts o) = (length sent + length replicas)%nat
  /\ logged_failure o = false.
Proof.
  induction replicas as [|r rest IH]; intros c ret sent; simpl.
  - repeat split; lia.
  - destruct (GetClientFromPool c (ip r) (port r)) as [c1 opened].
    specialize (IH c1 (if net (ip r) opened then ret + 1 else ret)
                   (sent ++ [mkAttempt (ip r) opened message])).
    simpl in IH. destruct IH as (Hret & Hlen & Hlog).
    rewrite length_app in Hlen. simpl in Hlen.
    destruct (net (ip r) opened); repeat split; try done; lia.
Qed.

Lemma SendHeartBeat_count c hb_info :
  SendHeartBeat net c hb_info
  = Z.of_nat (length (filter (fun r => net (ip r) (port r) = true)
                             (replicas_ c))).
Proof.
  unfold SendHeartBeat.
  assert (Hgen : forall l ret,
    fold_left (fun ret replica =>
                 if net (ip replica) (port replica) then ret + 1 else ret) l ret
    = ret + Z.of_nat (length (filter (fun r => net (ip r) (port r) = true) l))).
  { induction l as [|r l IH]; intros ret; simpl; [lia|].
    rewrite IH, filter_cons. destruct (net (ip r) (port r)).
    - rewrite decide_True by done. simpl. lia.
    - by rewrite decide_False. }
  by rewrite Hgen.
Qed.

Lemma SendBatchMessage_short_run c messages replica_info :
  is_use_long_conn_ c = false ->
  SendBatchMessage net c messages replica_info
  = mkOutcome
      (if net (ip replica_info) (port replica_info)
       then Z.of_nat (length messages) else 0)
      c
      (map (fun m => mkAttempt (ip replica_info) (port replica_info) (Raw m))
           messages)
      false.
Proof.
  intros Hshort. unfold SendBatchMessage. rewrite Hshort.
  assert (Hgen : forall l ret sent,
    fold_left
      (fun acc (m : Request) =>
         let o := SendMessageInternal net (after acc) (Raw m)
                    [replica_info] in
         mkOutcome (ret_value acc + ret_value o) (after o)
                   (attempts acc ++ attempts o) false)
      l (mkOutcome ret c sent false)
    = mkOutcome
        (ret + (if net (ip replica_info) (port replica_info)
                then Z.of_nat (length l) else 0))
        c
        (sent ++ map (fun m => mkAttempt (ip replica_info) (port replica_info)
                                  (Raw m)) l)
        false).
  { induction l as [|m l IH]; intros ret sent.
    - simpl. rewrite app_nil_r. f_equal.
      destruct (net _ _); lia.
    - cbn [fold_left]. rewrite SendMessageInternal_run. cbn [after ret_value
        attempts map filter]. rewrite IH. rewrite filter_cons, filter_nil.
      cbn [map length]. rewrite <- app_assoc. cbn [app].
      destruct (net (ip replica_info) (port replica_info)).
      + rewrite decide_True by done. f_equal. simpl length. lia.
      + rewrite decide_False by done. f_equal. simpl. lia. }
  by rewrite Hgen.
Qed.

(** With short connections the broadcast of this model addresses the
    replicas the broadcast path of [Transport] lists, in the same order. *)
Lemma BroadCast_models_agree c (m : Request) :
  is_use_long_conn_ c = false ->
  map (fun a => (to_ip a, to_port a)) (attempts (BroadCast net c (Raw m)))
  = map (fun p => (ip (fst p), port (fst p)))
        (Transport.BroadCast
           (Transport.mkReplicaCommunicator (replicas_ c) (clients_ c) false) m).
Proof.
  intros Hshort. unfold BroadCast, SendMessage, log_failure. rewrite Hshort.
  rewrite SendMessageInternal_run. simpl.
  unfold Transport.BroadCast, Transport.SendMessage,
    Transport.SendMessageInternal. simpl.
  induction (replicas_ c) as [|r l IH]; simpl; [done|]. by rewrite IH.
Qed.

End CommunicatorFacts.

Section CommunicatorExtras.

Import Communicator.

Variable net : Network.

(** X19. No send count is negative: [SendMessageInternal] and
    [SendMessageFromPool] return a count between 0 and the number of replicas
    they were given, [SendHeartBeat] one between 0 and the size of the roster,
    [SendMessage] and [SendBatchMessage] return at least 0; so the test
    [ret < 0] of [BroadCast] and of [SendMessage(message, node_id)] never
    holds and their failure is never logged. *)
Theorem send_counts_never_negative (c : ReplicaCommunicator)
    (message : Payload) (replicas : list ReplicaInfo)
    (messages : list Request) (replica_info : ReplicaInfo) (node_id : Z)
    (hb_info : Request) :
  0 <= ret_value (SendMessageInternal net c message replicas)
    <= Z.of_nat (length replicas)
  /\ 0 <= ret_value (SendMessageFromPool net c message replicas)
       <= Z.of_nat (length replicas)
  /\ 0 <= SendHeartBeat net c hb_info <= Z.of_nat (length (replicas_ c))
  /\ 0 <= ret_value (SendMessage net c message)
  /\ 0 <= ret_value (SendBatchMessage net c messages replica_info)
  /\ logged_failure (BroadCast net c message) = false
  /\ logged_failure (SendMessage_node net c message node_id) = false.
Proof.
  assert (Hint : forall c' l,
    0 <= ret_value (SendMessageInternal net c' message l) <= Z.of_nat (length l)).
  { intros c' l. rewrite SendMessageInternal_run. simpl.
    pose proof (length_filter (fun r => net (ip r) (port r) = true) l). lia. }
  assert (Hpool : forall c' m l,
    0 <= ret_value (SendMessageFromPool net c' m l) <= Z.of_nat (length l)).
  { intros c' m l.
    pose proof (SendMessageFromPool_loop_bounds net m l c' 0 []) as [? _].
    unfold SendMessageFromPool. simpl in *. lia. }
  assert (Hsend : forall c', 0 <= ret_value (SendMessage net c' message)).
  { intros c'. unfold SendMessage.
    destruct (is_use_long_conn_ c'); [simpl; lia|apply Hint]. }
  split; [apply Hint|]. split; [apply Hpool|]. split.
  { rewrite SendHeartBeat_count.
    pose proof (length_filter (fun r => net (ip r) (port r) = true)
                  (replicas_ c)). lia. }
  split; [apply Hsend|]. split.
  { destruct (is_use_long_conn_ c) eqn:Hlong.
    - unfold SendBatchMessage. rewrite Hlong. apply Hpool.
    - rewrite SendBatchMessage_short_run by done. simpl.
      destruct (net _ _); lia. }
  split.
  - unfold BroadCast, log_failure. simpl. apply Z.ltb_ge, Hsend.
  - unfold SendMessage_node.
    destruct (String.eqb _ _); [done|].
    unfold log_failure, SendMessage_replica, SendSingleMessage. simpl.
    apply Z.ltb_ge. destruct (is_use_long_conn_ c); [simpl; lia|apply Hint].
Qed.

(** X20. [SendMessage(message, node_id)] for an id that neither the roster
    nor the clients know sends nothing and changes nothing. *)
Theorem unknown_node_gets_nothing (c : ReplicaCommunicator)
    (message : Payload) (node_id : Z) :
  (forall r, r ∈ replicas_ c ++ clients_ c -> id r <> node_id) ->
  SendMessage_node net c message node_id = mkOutcome 0 c [] false.
Proof.
  intros Hnone.
  assert (Hfind : forall l, (forall r, r ∈ l -> id r <> node_id) ->
                            lookup_id node_id l = None).
  { induction l as [|r l IH]; intros Hl; [done|]. unfold lookup_id. simpl.
    destruct (Z.eqb_spec (id r) node_id) as [E|_].
    - exfalso. apply (Hl r); [left|done].
    - apply IH. intros r' Hr'. apply Hl. by right. }
  unfold SendMessage_node, target_replica, GetClientReplicas.
  rewrite (Hfind (replicas_ c)), (Hfind (clients_ c)); [done| |];
    intros r Hr; apply Hnone, elem_of_app; auto.
Qed.

(** X21. With short connections a message for one node goes to the whole
    roster: when the id resolves to a replica with an ip,
    [SendMessage(message, node_id)] sends the message once to every replica
    of the roster, in order, whichever node was named, and to nobody else;
    the communicator is unchanged. *)
Theorem short_connection_unicast_reaches_roster (c : ReplicaCommunicator)
    (message : Payload) (node_id : Z) :
  is_use_long_conn_ c = false ->
  ip (target_replica c node_id) <> EmptyString ->
  SendMessage_node net c message node_id
  = mkOutcome
      (Z.of_nat (length (filter (fun r => net (ip r) (port r) = true)
                                (replicas_ c))))
      c
      (map (fun r => mkAttempt (ip r) (port r) message) (replicas_ c))
      false.
Proof.
  intros Hshort Hip. unfold SendMessage_node.
  destruct (String.eqb_spec (ip (target_replica c node_id)) EmptyString);
    [done|].
  unfold SendMessage_replica, SendSingleMessage. rewrite Hshort.
  rewrite SendMessageInternal_run. unfold log_failure. simpl. f_equal.
  apply Z.ltb_ge. lia.
Qed.

(** X22. With long connections a message for a node is queued for the
    address of the replica the id resolves to: it is put at the end of the
    queue of that address (a new queue when the address had none), the queues
    of the other addresses, the pool and the rosters stay as they are, and
    nothing is sent by the call itself. *)
Theorem long_connection_unicast_queued (c : ReplicaCommunicator)
    (message : Payload) (node_id : Z) :
  is_use_long_conn_ c = true ->
  ip (target_replica c node_id) <> EmptyString ->
  let target := target_replica c node_id in
  let o := SendMessage_node net c message node_id in
  attempts o = [] /\ logged_failure o = false
  /\ single_bq_ (after o) !! (ip target, port target)
     = Some (default [] (single_bq_ c !! (ip target, port target)) ++ [message])
  /\ (forall key, key <> (ip target, port target) ->
        single_bq_ (after o) !! key = single_bq_ c !! key)
  /\ batch_queue_ (after o) = batch_queue_ c
  /\ client_pools_ (after o) = client_pools_ c
  /\ replicas_ (after o) = replicas_ c /\ clients_ (after o) = clients_ c.
Proof.
  intros Hlong Hip target o. subst o. unfold SendMessage_node. fold target.
  destruct (String.eqb_spec (ip target) EmptyString); [done|].
  unfold SendMessage_replica, SendSingleMessage, log_failure. rewrite Hlong.
  simpl. repeat split.
  - by rewrite lookup_insert_eq.
  - intros key Hkey. by rewrite lookup_insert_ne.
Qed.

(** X23. The pool keeps one client per address: [GetClientFromPool] opens
    a client on first use, on the port of the address with short connections
    and 10000 ports up with long ones, leaves the clients of the other
    addresses alone, and a second call for the address gives the same
    client without changing the pool. *)
Theorem pool_keeps_one_client (c : ReplicaCommunicator) (ip : string)
    (port : Z) :
  let '(c1, opened) := GetClientFromPool c ip port in
  client_pools_ c1 !! (ip, port) = Some opened
  /\ (client_pools_ c !! (ip, port) = None ->
      opened = port + (if is_use_long_conn_ c then 10000 else 0))
  /\ (forall known, client_pools_ c !! (ip, port) = Some known ->
        opened = known /\ c1 = c)
  /\ (forall key, key <> (ip, port) ->
        client_pools_ c1 !! key = client_pools_ c !! key)
  /\ GetClientFromPool c1 ip port = (c1, opened).
Proof.
  unfold GetClientFromPool.
  destruct (client_pools_ c !! (ip, port)) as [known|] eqn:E.
  - rewrite ?E. split; [done|]. split; [done|].
    split; [by intros ? [= <-]|]. by split.
  - simpl. rewrite !lookup_insert_eq. split; [done|]. split; [done|].
    split; [done|]. split; [|done].
    intros key Hkey. by rewrite lookup_insert_ne.
Qed.

(** X24. What a batch counts for depends on the connection mode.  With
    short connections [SendBatchMessage] sends the messages one by one to the
    address of the replica and returns their number when the address takes
    them, 0 when it does not.  With long connections it sends one envelope
    with all the messages, in order, through the pooled client, and returns 1
    or 0, however many messages there are. *)
Theorem batch_send_counts (c : ReplicaCommunicator) (messages : list Request)
    (replica_info : ReplicaInfo) :
  let o := SendBatchMessage net c messages replica_info in
  if is_use_long_conn_ c then
    let opened := snd (GetClientFromPool c (ip replica_info)
                         (port replica_info)) in
    attempts o = [mkAttempt (ip replica_info) opened (Envelope messages)]
    /\ ret_value o = (if net (ip replica_info) opened then 1 else 0)
  else
    attempts o
    = map (fun m => mkAttempt (ip replica_info) (port replica_info) (Raw m))
          messages
    /\ ret_value o = (if net (ip replica_info) (port replica_info)
                      then Z.of_nat (length messages) else 0)
    /\ after o = c.
Proof.
  destruct (is_use_long_conn_ c) eqn:Hlong.
  - unfold SendBatchMessage, SendMessageFromPool. rewrite Hlong. simpl.
    destruct (GetClientFromPool c (ip replica_info) (port replica_info))
      as [c1 opened]. simpl. split; [done|].
    by destruct (net (ip replica_info) opened).
  - by rewrite SendBatchMessage_short_run.
Qed.

End CommunicatorExtras.

(** ** Witnesses *)

Lemma roster_only_grows_witness :
  exists added,
    replicas_ (run_calls [CallAddReplica (replica_n 5)] four_in_two)
    = replicas_ four_in_two ++ added
    /\ Forall (fun r => malformed r = false) added
    /\ NoDup (map id (replicas_
                        (run_calls [CallAddReplica (replica_n 5)] four_in_two))).
Proof.
  destruct (roster_only_grows [CallAddReplica (replica_n 5)] four_in_two)
    as (added & Hros & Hwf & Hnd).
  exists added. split; [exact Hros|]. split; [exact Hwf|].
  apply Hnd. vm_compute.
  repeat (constructor; [intros Hin; repeat
    (apply elem_of_cons in Hin as [Hin|Hin]; [discriminate Hin|]);
    by apply elem_of_nil in Hin|]).
  constructor.
Defined.

Lemma new_request_sequenced_witness :
  exists pre_prepare s',
    ProcessNewRequest (replica_cfg 1) signed (request_H TYPE_NEW_TXNS 9 0)
      (scripted four_in_two [Some 7] [] IDLE no_duplicates)
    = Some (0, s',
            [Stat "IncClientRequest"; CallCheckAndAddProposed "H";
             CallAssignNextSeq; Stat "RecordStateTime(request)"]
            ++ map (fun i => SendMessage pre_prepare
                               (GetPrimaryOfShard four_in_two (Z.of_nat i)))
                   (List.seq 0 2))
    /\ Request.seq pre_prepare = 7.
Proof.
  destruct (new_request_sequenced (replica_cfg 1) signed
              (request_H TYPE_NEW_TXNS 9 0)
              (scripted four_in_two [Some 7] [] IDLE no_duplicates)
              accept_all 7 (mkScript [] [] IDLE 1 0))
    as (pre_prepare & s' & Hrun & _ & _ & _ & Hseq & _).
  - reflexivity.
  - vm_compute. reflexivity.
  - vm_compute. reflexivity.
  - reflexivity.
  - reflexivity.
  - reflexivity.
  - apply not_elem_of_empty.
  - reflexivity.
  - exists pre_prepare, s'. split; [exact Hrun|exact Hseq].
Defined.

Lemma new_request_forwarded_witness :
  ProcessNewRequest (replica_cfg 3) signed (request_H TYPE_NEW_TXNS 9 0)
    (scripted four_in_two [Some 7] [] IDLE no_duplicates)
  = Some (-3,
          mkState four_in_two (mkScript [Some 7] [] IDLE 1 0) no_duplicates
                  [(signed, request_H TYPE_NEW_TXNS 9 0)],
          [SendMessage (request_H TYPE_NEW_TXNS 9 0) 1]).
Proof.
  apply (new_request_forwarded (replica_cfg 3) signed
           (request_H TYPE_NEW_TXNS 9 0)
           (scripted four_in_two [Some 7] [] IDLE no_duplicates)).
  - reflexivity.
  - vm_compute. reflexivity.
  - vm_compute. discriminate.
Defined.

Lemma new_request_return_code_witness :
  request_complained_
    (mkState four_in_two (mkScript [Some 7] [] IDLE 1 0) no_duplicates
             [(signed, request_H TYPE_NEW_TXNS 9 0)])
  = request_complained_ (scripted four_in_two [Some 7] [] IDLE no_duplicates)
    ++ [(signed, request_H TYPE_NEW_TXNS 9 0)].
Proof.
  eapply (new_request_return_code (replica_cfg 3) signed
            (request_H TYPE_NEW_TXNS 9 0)
            (scripted four_in_two [Some 7] [] IDLE no_duplicates) _ (-3)).
  vm_compute. reflexivity.
Defined.

Lemma no_send_without_state_change_witness :
  filter (fun e => is_send e = true)
    [CallAddConsensusMsg {| signature := "sig" |} (request_H TYPE_PREPARE 2 1)]
  = [].
Proof.
  apply (no_send_without_state_change (replica_cfg 1) signed
           (request_H TYPE_PREPARE 2 1)
           (scripted four_in_two [] [OK] READY_PREPARE no_duplicates)
           (scripted four_in_two [] [] READY_PREPARE no_duplicates) 0).
  - vm_compute. reflexivity.
  - right. intros c _. vm_compute. discriminate.
  - right. left. vm_compute. reflexivity.
Defined.

Lemma unsigned_rejected_witness :
  ProcessNewRequest (replica_cfg 1) None (request_H TYPE_NEW_TXNS 9 0)
    (scripted four_in_two [] [] IDLE no_duplicates)
  = Some (-2, scripted four_in_two [] [] IDLE no_duplicates, [])
  /\ ProcessCommitMsg (replica_cfg 1) None (request_H TYPE_COMMIT 2 0)
       (scripted four_in_two [] [] IDLE no_duplicates)
     = Some (-2, scripted four_in_two [] [] IDLE no_duplicates, []).
Proof.
  split.
  - destruct (unsigned_rejected (replica_cfg 1) None
                (request_H TYPE_NEW_TXNS 9 0)
                (scripted four_in_two [] [] IDLE no_duplicates)) as [Hnew _].
    apply Hnew. reflexivity.
  - destruct (unsigned_rejected (replica_cfg 1) None
                (request_H TYPE_COMMIT 2 0)
                (scripted four_in_two [] [] IDLE no_duplicates)) as [_ Hcons].
    destruct Hcons as [Hunsigned _]; [vm_compute; reflexivity|].
    destruct (Hunsigned eq_refl) as (_ & _ & Hcommit). exact Hcommit.
Defined.


Lemma stranger_proposal_never_recorded_witness :
  ProcessProposeMsg (replica_cfg 1) signed (request_H TYPE_PRE_PREPARE 3 1)
    (scripted four_in_two [] [STATE_CHANGED] READY_PREPARE no_duplicates)
  = Some (-2,
          scripted four_in_two [] [STATE_CHANGED] READY_PREPARE no_duplicates,
          [])
  /\ ProcessProposeMsg (replica_cfg 3) signed (request_H TYPE_PRE_PREPARE 4 1)
       (scripted four_in_two [] [STATE_CHANGED] READY_PREPARE no_duplicates)
     = Some (-3,
             scripted four_in_two [] [STATE_CHANGED] READY_PREPARE
               no_duplicates,
             [SendMessage (request_H TYPE_PRE_PREPARE 4 1) 1]).
Proof.
  split.
  - refine (stranger_proposal_never_recorded (replica_cfg 1) signed
              (request_H TYPE_PRE_PREPARE 3 1)
              (scripted four_in_two [] [STATE_CHANGED] READY_PREPARE
                 no_duplicates) _ _ _).
    + reflexivity.
    + vm_compute. discriminate.
    + vm_compute. discriminate.
  - refine (stranger_proposal_never_recorded (replica_cfg 3) signed
              (request_H TYPE_PRE_PREPARE 4 1)
              (scripted four_in_two [] [STATE_CHANGED] READY_PREPARE
                 no_duplicates) _ _ _).
    + reflexivity.
    + vm_compute. discriminate.
    + vm_compute. discriminate.
Defined.

Lemma recovery_messages_recorded_witness :
  exists s',
    ProcessPrepareMsg (replica_cfg 1) signed (recovery_H TYPE_PREPARE 2 5)
      (scripted four_in_two [] [STATE_CHANGED] READY_COMMIT no_duplicates)
    = Some (1, s',
            [CallAddConsensusMsg {| signature := "sig" |}
               (recovery_H TYPE_PREPARE 2 5)])
    /\ store s' = mkScript [] [] READY_COMMIT 1 0.
Proof.
  destruct (recovery_messages_recorded (replica_cfg 1) {| signature := "sig" |}
              (recovery_H TYPE_PREPARE 2 5)
              (scripted four_in_two [] [STATE_CHANGED] READY_COMMIT
                 no_duplicates)) as (_ & Hprepare & _).
  - vm_compute. reflexivity.
  - discriminate.
  - reflexivity.
  - exact Hprepare.
Defined.

Lemma commit_outcome_witness :
  ProcessCommitMsg (replica_cfg 1) signed (request_H TYPE_COMMIT 2 1)
    (scripted four_in_two [] [STATE_CHANGED] READY_COMMIT no_duplicates)
  = None
  /\ exists s',
       ProcessCommitMsg (replica_cfg 1) signed (request_H TYPE_COMMIT 2 1)
         (scripted four_in_two [] [OK] READY_COMMIT no_duplicates)
       = Some (0, s',
               [CallAddConsensusMsg {| signature := "sig" |}
                  (request_H TYPE_COMMIT 2 1)])
       /\ store s' = mkScript [] [] READY_COMMIT 1 0.
Proof.
  split.
  - refine (commit_outcome (replica_cfg 1) {| signature := "sig" |}
              (request_H TYPE_COMMIT 2 1)
              (scripted four_in_two [] [STATE_CHANGED] READY_COMMIT
                 no_duplicates) _ _ _).
    + vm_compute. reflexivity.
    + discriminate.
    + reflexivity.
  - refine (commit_outcome (replica_cfg 1) {| signature := "sig" |}
              (request_H TYPE_COMMIT 2 1)
              (scripted four_in_two [] [OK] READY_COMMIT no_duplicates)
              _ _ _).
    + vm_compute. reflexivity.
    + discriminate.
    + reflexivity.
Defined.

Lemma unknown_node_gets_nothing_witness :
  Communicator.SendMessage_node all_up (example_communicator true)
    (Communicator.Raw (request_H TYPE_RESPONSE 1 1)) 7
  = Communicator.mkOutcome 0 (example_communicator true) [] false.
Proof.
  apply (unknown_node_gets_nothing all_up (example_communicator true)
           (Communicator.Raw (request_H TYPE_RESPONSE 1 1)) 7).
  intros r Hr.
  repeat (apply elem_of_cons in Hr as [->|Hr]; [vm_compute; discriminate|]).
  by apply elem_of_nil in Hr.
Defined.

Lemma short_connection_unicast_reaches_roster_witness :
  Communicator.SendMessage_node all_up (example_communicator false)
    (Communicator.Raw (request_H TYPE_RESPONSE 1 1)) 9
  = Communicator.mkOutcome 4 (example_communicator false)
      (map (fun r => Communicator.mkAttempt (ip r) (port r)
                       (Communicator.Raw (request_H TYPE_RESPONSE 1 1)))
           (replicas_ four_in_two))
      false.
Proof.
  apply (short_connection_unicast_reaches_roster all_up
           (example_communicator false)
           (Communicator.Raw (request_H TYPE_RESPONSE 1 1)) 9).
  - reflexivity.
  - vm_compute. discriminate.
Defined.

Lemma long_connection_unicast_queued_witness :
  Communicator.single_bq_
    (Communicator.after
       (Communicator.SendMessage_node all_up (example_communicator true)
          (Communicator.Raw (request_H TYPE_RESPONSE 1 1)) 9))
    !! ("127.0.0.1"%string, 10009)
  = Some [Communicator.Raw (request_H TYPE_RESPONSE 1 1)].
Proof.
  destruct (long_connection_unicast_queued all_up (example_communicator true)
              (Communicator.Raw (request_H TYPE_RESPONSE 1 1)) 9)
    as (_ & _ & Hq & _).
  - reflexivity.
  - vm_compute. discriminate.
  - exact Hq.
Defined.

Lemma inner_commit_to_every_member_witness :
  exists s',
    ProcessPrepareMsg (replica_cfg 3) signed (request_H TYPE_PREPARE 1 1)
      (scripted four_in_two [] [STATE_CHANGED] READY_EXECUTE no_duplicates)
    = Some (0, s',
            [CallAddConsensusMsg {| signature := "sig" |}
               (request_H TYPE_PREPARE 1 1);
             CallSetHighestPreparedSeq 1;
             SendMessage
               (Request.set_data_signature SignatureInfo_clear
                  (NewRequest TYPE_COMMIT (request_H TYPE_PREPARE 1 1) 3)) 1;
             SendMessage
               (Request.set_data_signature SignatureInfo_clear
                  (NewRequest TYPE_COMMIT (request_H TYPE_PREPARE 1 1) 3)) 3])
    /\ store s' = mkScript [] [] READY_EXECUTE 1 1.
Proof.
  destruct (inner_commit_to_every_member (replica_cfg 3)
              {| signature := "sig" |} (request_H TYPE_PREPARE 1 1)
              (scripted four_in_two [] [STATE_CHANGED] READY_EXECUTE
                 no_duplicates)
              (mkScript [] [] READY_EXECUTE 1 0)
              (Request.set_data_signature SignatureInfo_clear
                 (NewRequest TYPE_COMMIT (request_H TYPE_PREPARE 1 1) 3)))
    as (s' & Hrun & Hstore & _).
  - vm_compute. reflexivity.
  - discriminate.
  - reflexivity.
  - reflexivity.
  - reflexivity.
  - vm_compute. discriminate.
  - exists s'. split; [exact Hrun|exact Hstore].
Defined.

Lemma commit_not_signed_not_sent_witness :
  exists s',
    ProcessPrepareMsg (qc_cfg 3) signed (request_H TYPE_PREPARE 1 1)
      (scripted four_in_two [] [STATE_CHANGED] READY_EXECUTE no_duplicates)
    = Some (-2, s',
            [CallAddConsensusMsg {| signature := "sig" |}
               (request_H TYPE_PREPARE 1 1);
             CallSetHighestPreparedSeq 1])
    /\ store s' = mkScript [] [] READY_EXECUTE 1 1.
Proof.
  destruct (commit_not_signed_not_sent (qc_cfg 3) {| signature := "sig" |}
              (request_H TYPE_PREPARE 1 1)
              (scripted four_in_two [] [STATE_CHANGED] READY_EXECUTE
                 no_duplicates)
              (mkScript [] [] READY_EXECUTE 1 0) signs_nothing)
    as (s' & Hrun & Hstore).
  - vm_compute. reflexivity.
  - discriminate.
  - reflexivity.
  - reflexivity.
  - reflexivity.
  - reflexivity.
  - reflexivity.
  - exists s'. split; [exact Hrun|exact Hstore].
Defined.

Lemma pool_keeps_one_client_witness :
  client_pools_of_first_use = Some 20001.
Proof.
  pose proof (pool_keeps_one_client (example_communicator true)
                "127.0.0.1" 10001) as Hpool.
  destruct (Communicator.GetClientFromPool (example_communicator true)
              "127.0.0.1" 10001) as [c1 opened] eqn:E.
  destruct Hpool as (Hin & Hfresh & _).
  unfold client_pools_of_first_use. rewrite E. simpl. rewrite Hin.
  rewrite Hfresh; [reflexivity|]. vm_compute. reflexivity.
Defined.
